(** * testutil.Accumulator: ingestion, delivery tracking and waiters

    A shallow embedding of [testutil/accumulator.go].  The Go object
    [*Accumulator] becomes a record that every method takes and returns
    (explicit state passing).  Each method body runs under [a.Lock()], so
    one method call is one atomic step of the model; the mutexes themselves
    carry no data and are not represented.  A Go [panic] is the [Panic]
    outcome.  Goroutines that are blocked are part of the state: the
    consumers parked in a receive on the delivery channel are counted in
    the channel, and the broadcasts that wake parked waiters are counted in
    the condition variable. *)

From Stdlib Require Import ZArith NArith Lia.
From stdpp Require Import base gmap strings list fin_maps.

Local Open Scope string_scope.
Local Open Scope list_scope.
Local Open Scope nat_scope.
Local Open Scope stdpp_scope.

(** ** Data model *)

(** [telegraf.ValueType]: the semantic kind of a measurement. *)
Inductive ValueType := Counter | Gauge | Untyped | Summary | Histogram.

(** [interface{}] restricted to the field types the accessors of the
    accumulator probe for ([int], [int32], [int64], [uint64], [float64],
    [string], [bool]).  A [float64] is kept as its 64 IEEE bits. *)
Inductive FieldValue :=
| VInt (z : Z)
| VInt32 (z : Z)
| VInt64 (z : Z)
| VUint64 (n : N)
| VFloat64 (bits : N)
| VString (s : string)
| VBool (b : bool).

(** [time.Time], as nanoseconds since the epoch. *)
Definition time_Time := Z.

(** A non-nil Go [error], identified by its message; a possibly-nil
    [error] argument is an [option error]. *)
Definition error := string.

(** [telegraf.TrackingID]. *)
Definition TrackingID := N.

(** [type Metric struct]: a single point measurement in test format. *)
Record Metric := mkMetric {
  Measurement : string;
  Tags : gmap string string;
  Fields : gmap string FieldValue;
  Time_ : time_Time;
  Type_ : ValueType
}.

(** Modelled from the spec: the interface type [telegraf.Metric], declared
    outside src/.  The spec's Measurement is
    [{name, tags, fields, timestamp, kind}] with unique keys; a tracked
    measurement additionally refers to its shared tracking obligation by
    id. *)
Record telegraf_Metric := mkTelegrafMetric {
  m_Name : string;
  m_Tags : gmap string string;
  m_Fields : gmap string FieldValue;
  m_Time : time_Time;
  m_Type : ValueType;
  m_Tracking : option TrackingID
}.

(** [m.FieldList()]: the fields of a [telegraf.Metric] as a slice. *)
Definition FieldList (m : telegraf_Metric) : list (string * FieldValue) :=
  map_to_list (m_Fields m).

(** Modelled from the spec: [ToTestMetric] (testutil/metric.go, not under
    src/).  The spec has one Measurement type and no coercion of fields, so
    the conversion keeps name, tags, fields, time and kind. *)
Definition ToTestMetric (tm : telegraf_Metric) : Metric :=
  {| Measurement := m_Name tm;
     Tags := m_Tags tm;
     Fields := m_Fields tm;
     Time_ := m_Time tm;
     Type_ := m_Type tm |}.

(** Modelled from the spec: [FromTestMetric] (testutil/metric.go, not under
    src/), the converse conversion; the result is untracked. *)
Definition FromTestMetric (met : Metric) : telegraf_Metric :=
  {| m_Name := Measurement met;
     m_Tags := Tags met;
     m_Fields := Fields met;
     m_Time := Time_ met;
     m_Type := Type_ met;
     m_Tracking := None |}.

(** Modelled from the spec: [telegraf.DeliveryInfo], an interface declared
    outside src/.  The spec's Delivery Notification is
    [{id, delivered, accepted-count}]. *)
Record DeliveryInfo := mkDeliveryInfo {
  ID : TrackingID;
  Delivered_ : bool;
  accepted_count : Z
}.

(** [chan telegraf.DeliveryInfo] made with [make(chan _, cap)]: a bounded
    FIFO buffer together with the receivers blocked on it.  The head of
    [chan_buf] is the next value a receiver gets; [chan_recvq] counts the
    consumers parked in [<-a.Delivered()]. *)
Record Chan := mkChan {
  chan_cap : nat;
  chan_buf : list DeliveryInfo;
  chan_recvq : nat
}.

(** [type Accumulator struct].  [Cond] is [None] for the nil [*sync.Cond];
    an allocated condition variable is represented by the number of
    [Broadcast] calls it has received, each of which wakes every parked
    waiter to re-check its predicate. *)
Record Accumulator := mkAccumulator {
  nMetrics : N;
  Metrics : list Metric;
  accumulated : list telegraf_Metric;
  Discard : bool;
  Errors : list error;
  debug : bool;
  deliverChan : option Chan;
  delivered : list DeliveryInfo;
  TimeFunc : option (unit -> time_Time);
  Cond : option nat
}.

(** The zero value [Accumulator{}]. *)
Definition zero_Accumulator : Accumulator :=
  {| nMetrics := 0; Metrics := []; accumulated := []; Discard := false;
     Errors := []; debug := false; deliverChan := None; delivered := [];
     TimeFunc := None; Cond := None |}.

(** Result of a call that may panic. *)
Inductive outcome (A : Type) :=
| Done (a : A)
| Panic (msg : string).
Arguments Done {A} a.
Arguments Panic {A} msg.

(** ** Field updates *)

Definition set_nMetrics (n : N) (a : Accumulator) : Accumulator :=
  mkAccumulator n (Metrics a) (accumulated a) (Discard a) (Errors a)
    (debug a) (deliverChan a) (delivered a) (TimeFunc a) (Cond a).

Definition set_Metrics (ms : list Metric) (a : Accumulator) : Accumulator :=
  mkAccumulator (nMetrics a) ms (accumulated a) (Discard a) (Errors a)
    (debug a) (deliverChan a) (delivered a) (TimeFunc a) (Cond a).

Definition set_accumulated (ms : list telegraf_Metric) (a : Accumulator)
  : Accumulator :=
  mkAccumulator (nMetrics a) (Metrics a) ms (Discard a) (Errors a)
    (debug a) (deliverChan a) (delivered a) (TimeFunc a) (Cond a).

Definition set_Discard (d : bool) (a : Accumulator) : Accumulator :=
  mkAccumulator (nMetrics a) (Metrics a) (accumulated a) d (Errors a)
    (debug a) (deliverChan a) (delivered a) (TimeFunc a) (Cond a).

Definition set_Errors (es : list error) (a : Accumulator) : Accumulator :=
  mkAccumulator (nMetrics a) (Metrics a) (accumulated a) (Discard a) es
    (debug a) (deliverChan a) (delivered a) (TimeFunc a) (Cond a).

Definition set_debug (d : bool) (a : Accumulator) : Accumulator :=
  mkAccumulator (nMetrics a) (Metrics a) (accumulated a) (Discard a)
    (Errors a) d (deliverChan a) (delivered a) (TimeFunc a) (Cond a).

Definition set_deliverChan (c : option Chan) (a : Accumulator)
  : Accumulator :=
  mkAccumulator (nMetrics a) (Metrics a) (accumulated a) (Discard a)
    (Errors a) (debug a) c (delivered a) (TimeFunc a) (Cond a).

Definition set_delivered (ds : list DeliveryInfo) (a : Accumulator)
  : Accumulator :=
  mkAccumulator (nMetrics a) (Metrics a) (accumulated a) (Discard a)
    (Errors a) (debug a) (deliverChan a) ds (TimeFunc a) (Cond a).

Definition set_TimeFunc (f : option (unit -> time_Time)) (a : Accumulator)
  : Accumulator :=
  mkAccumulator (nMetrics a) (Metrics a) (accumulated a) (Discard a)
    (Errors a) (debug a) (deliverChan a) (delivered a) f (Cond a).

Definition set_Cond (c : option nat) (a : Accumulator) : Accumulator :=
  mkAccumulator (nMetrics a) (Metrics a) (accumulated a) (Discard a)
    (Errors a) (debug a) (deliverChan a) (delivered a) (TimeFunc a) c.

(** ** Primitives of the Go runtime used by the accumulator *)

(** [atomic.AddUint64(&x, delta)]: addition of [uint64], wrapping at
    [2^64]. *)
Definition atomic_AddUint64 (x delta : N) : N := ((x + delta) mod 2 ^ 64)%N.

(** [int(x)] for [x : uint64] on a 64-bit platform: reinterpretation as a
    signed 64-bit integer. *)
Definition int_of_uint64 (x : N) : Z :=
  if (x <? 2 ^ 63)%N then Z.of_N x else (Z.of_N x - 2 ^ 64)%Z.

(** A send that must not block ([case c <- info] of a [select] with a
    [default]).  It is ready when a receiver is parked on the channel, which
    then takes the value directly, or when the buffer has room; the result
    is the channel afterwards and the value handed to a parked receiver, if
    any.  [None] when the send is not ready. *)
Definition chan_try_send (info : DeliveryInfo) (c : Chan)
  : option (Chan * option DeliveryInfo) :=
  if (0 <? chan_recvq c)%nat then
    Some ({| chan_cap := chan_cap c; chan_buf := chan_buf c;
             chan_recvq := chan_recvq c - 1 |}, Some info)
  else if (length (chan_buf c) <? chan_cap c)%nat then
    Some ({| chan_cap := chan_cap c; chan_buf := chan_buf c ++ [info];
             chan_recvq := chan_recvq c |}, None)
  else None.

(** A blocking receive [<-c]: it takes the head of the buffer, or parks the
    receiver when the buffer is empty. *)
Definition chan_recv (c : Chan) : Chan * option DeliveryInfo :=
  match chan_buf c with
  | info :: rest =>
      ({| chan_cap := chan_cap c; chan_buf := rest;
          chan_recvq := chan_recvq c |}, Some info)
  | [] =>
      ({| chan_cap := chan_cap c; chan_buf := [];
          chan_recvq := chan_recvq c + 1 |}, None)
  end.

(** [if a.Cond != nil { a.Cond.Broadcast() }]. *)
Definition Broadcast (a : Accumulator) : Accumulator :=
  match Cond a with
  | None => a
  | Some g => set_Cond (Some (S g)) a
  end.

(** [if a.Cond == nil { a.Cond = sync.NewCond(&a.Mutex) }]. *)
Definition NewCond_if_nil (a : Accumulator) : Accumulator :=
  match Cond a with
  | None => set_Cond (Some 0) a
  | Some _ => a
  end.

(** [c := make(map, len(m)); for k, v := range m { c[k] = v }]: a fresh map
    filled entry by entry. *)
Definition copy_map {V : Type} (m : gmap string V) : gmap string V :=
  map_fold (fun k v c => <[k := v]> c) ∅ m.

(** The same loop with the maps as the heap objects they are in Go.  A
    map value is a reference to a map object ([None] is the nil map, which
    reads as empty); [make] allocates an object no reference points to
    yet, and [c[k] = v] updates the object in place. *)
Definition map_ref := option positive.

Definition map_contents {V : Type} (h : gmap positive (gmap string V))
    (r : map_ref) : gmap string V :=
  match r with
  | Some l => default ∅ (h !! l)
  | None => ∅
  end.

Definition map_assign {V : Type} (c : positive) (k : string) (v : V)
    (h : gmap positive (gmap string V)) : gmap positive (gmap string V) :=
  <[c := <[k := v]> (default ∅ (h !! c))]> h.

Definition copy_fresh {V : Type} (src : map_ref)
    (h : gmap positive (gmap string V))
  : positive * gmap positive (gmap string V) :=
  let c := fresh (dom h) in
  (c, map_fold (fun k v h' => map_assign c k v h') (<[c := ∅]> h)
        (map_contents h src)).

(** ** Methods of [*Accumulator] *)

Definition NMetrics (a : Accumulator) : N := nMetrics a.

Definition NDelivered (a : Accumulator) : nat := length (delivered a).

(** [GetTelegrafMetrics]: a fresh slice holding the accumulated metrics. *)
Definition GetTelegrafMetrics (a : Accumulator) : list telegraf_Metric :=
  [] ++ accumulated a.

Definition GetDeliveries (a : Accumulator) : list DeliveryInfo :=
  [] ++ delivered a.

Definition FirstError (a : Accumulator) : option error :=
  match Errors a with
  | [] => None
  | e :: _ => Some e
  end.

Definition ClearMetrics (a : Accumulator) : Accumulator :=
  let a := set_nMetrics 0 a in
  let a := set_Metrics [] a in
  set_accumulated [] a.

(** [addMeasurement].  [now] is what [time.Now()] reads at this call; the
    variadic [timestamp ...time.Time] is a list. *)
Definition addMeasurement (now : time_Time) (measurement : string)
    (tags : gmap string string) (fields : gmap string FieldValue)
    (tp : ValueType) (timestamp : list time_Time) (a : Accumulator)
  : Accumulator :=
  let a := set_nMetrics (atomic_AddUint64 (nMetrics a) 1) a in
  let a := Broadcast a in
  if Discard a then a
  else if (size fields =? 0)%nat then a
  else
    let tagsCopy := copy_map tags in
    let fieldsCopy := copy_map fields in
    let t :=
      match timestamp with
      | t0 :: _ => t0
      | [] =>
          match TimeFunc a with
          | None => now
          | Some f => f tt
          end
      end in
    let m := {| Measurement := measurement;
                Fields := fieldsCopy;
                Tags := tagsCopy;
                Time_ := t;
                Type_ := tp |} in
    let a := set_Metrics (Metrics a ++ [m]) a in
    set_accumulated (accumulated a ++ [FromTestMetric m]) a.

Definition AddFields now measurement fields tags timestamp :=
  addMeasurement now measurement tags fields Untyped timestamp.

Definition AddCounter now measurement fields tags timestamp :=
  addMeasurement now measurement tags fields Counter timestamp.

Definition AddGauge now measurement fields tags timestamp :=
  addMeasurement now measurement tags fields Gauge timestamp.

Definition AddSummary now measurement fields tags timestamp :=
  addMeasurement now measurement tags fields Summary timestamp.

Definition AddHistogram now measurement fields tags timestamp :=
  addMeasurement now measurement tags fields Histogram timestamp.

Definition AddMetric (m : telegraf_Metric) (a : Accumulator) : Accumulator :=
  let a := set_nMetrics (atomic_AddUint64 (nMetrics a) 1) a in
  let a := Broadcast a in
  if Discard a then a
  else if (length (FieldList m) =? 0)%nat then a
  else
    let a := set_Metrics (Metrics a ++ [ToTestMetric m]) a in
    set_accumulated (accumulated a ++ [m]) a.

(** [AddMetrics]: [for _, m := range metrics { a.AddMetric(m) }]. *)
Definition AddMetrics (metrics : list telegraf_Metric) (a : Accumulator)
  : Accumulator :=
  fold_left (fun a m => AddMetric m a) metrics a.

(** [WithTracking].  [make(chan _, n)] panics for a negative [n]. *)
Definition WithTracking (maxTracked : Z) (a : Accumulator)
  : outcome Accumulator :=
  if (maxTracked <? 0)%Z then Panic "makechan: size out of range"
  else
    let a := set_deliverChan
               (Some {| chan_cap := Z.to_nat maxTracked; chan_buf := [];
                        chan_recvq := 0 |})
               a in
    Done (set_delivered [] a).

(** [onDelivery]: [select { case a.deliverChan <- info: default: panic }].
    A send on the nil channel is never ready.  The second component of the
    result is the notification when it went straight to a parked
    receiver. *)
Definition onDelivery (info : DeliveryInfo) (a : Accumulator)
  : outcome (Accumulator * option DeliveryInfo) :=
  match deliverChan a with
  | Some c =>
      match chan_try_send info c with
      | Some (c', handed) => Done (set_deliverChan (Some c') a, handed)
      | None => Panic "channel is full"
      end
  | None => Panic "channel is full"
  end.

(** [Delivered]: the receive side of the channel. *)
Definition Delivered (a : Accumulator) : option Chan := deliverChan a.

(** A consumer's [<-a.Delivered()].  On the nil channel the consumer blocks
    for ever and the accumulator is unchanged. *)
Definition recv (a : Accumulator) : Accumulator * option DeliveryInfo :=
  match Delivered a with
  | Some c =>
      let '(c', got) := chan_recv c in
      (set_deliverChan (Some c') a, got)
  | None => (a, None)
  end.

Definition AddError (err : option error) (a : Accumulator) : Accumulator :=
  match err with
  | None => a
  | Some e =>
      let a := set_Errors (Errors a ++ [e]) a in
      Broadcast a
  end.

Definition Debug (a : Accumulator) : bool := debug a.

Definition SetDebug (d : bool) (a : Accumulator) : Accumulator :=
  set_debug d a.

(** Whether a waiter came back from its loop or is parked in
    [a.Cond.Wait()]. *)
Inductive wait_status := Returned | Parked.

(** [Wait(n)]: allocates the condition variable on first use, then loops
    [for int(a.NMetrics()) < n { a.Cond.Wait() }]. *)
Definition Wait (n : Z) (a : Accumulator) : Accumulator * wait_status :=
  let a := NewCond_if_nil a in
  (a, if (int_of_uint64 (NMetrics a) <? n)%Z then Parked else Returned).

(** [WaitError(n)]: the same loop on [len(a.Errors)]. *)
Definition WaitError (n : Z) (a : Accumulator) : Accumulator * wait_status :=
  let a := NewCond_if_nil a in
  (a, if (Z.of_nat (length (Errors a)) <? n)%Z then Parked else Returned).

(** ** The ingestion path with the maps as heap objects

    In Go a [map] value is a reference to a map object, so whether the
    accumulator keeps the caller's maps or maps of its own is visible only
    with the objects in the model.  Here [addMeasurement] and its five entry
    points are embedded once more, statement by statement, with [tags],
    [fields], [tagsCopy] and [fieldsCopy] as references into a store of map
    objects, and with [Metric.Tags] and [Metric.Fields] holding
    references. *)

(** The map objects of the heap, by type. *)
Record Store := mkStore {
  tag_maps : gmap positive (gmap string string);
  field_maps : gmap positive (gmap string FieldValue)
}.

(** [type Metric struct] with [Tags] and [Fields] as references. *)
Record MetricObj := mkMetricObj {
  obj_Measurement : string;
  obj_Tags : map_ref;
  obj_Fields : map_ref;
  obj_Time : time_Time;
  obj_Type : ValueType
}.

(** What a [Metric] reads as in a given store. *)
Definition read_Metric (st : Store) (o : MetricObj) : Metric :=
  {| Measurement := obj_Measurement o;
     Tags := map_contents (tag_maps st) (obj_Tags o);
     Fields := map_contents (field_maps st) (obj_Fields o);
     Time_ := obj_Time o;
     Type_ := obj_Type o |}.

(** The accumulator with [a.Metrics] as the objects it holds; [rest]
    carries every other field of the struct. *)
Record AccumulatorObj := mkAccumulatorObj {
  Metrics_obj : list MetricObj;
  rest : Accumulator
}.

(** The accumulator as it reads in a given store. *)
Definition view (st : Store) (ao : AccumulatorObj) : Accumulator :=
  set_Metrics (map (read_Metric st) (Metrics_obj ao)) (rest ao).

(** [addMeasurement] on references.  [len(fields)] and the two [range]
    loops read the caller's objects; [make] allocates the copies;
    [FromTestMetric(m)] reads [m] as it is when it is called. *)
Definition addMeasurement_obj (now : time_Time) (measurement : string)
    (tags fields : map_ref) (tp : ValueType) (timestamp : list time_Time)
    (st : Store) (ao : AccumulatorObj) : Store * AccumulatorObj :=
  let a := set_nMetrics (atomic_AddUint64 (nMetrics (rest ao)) 1) (rest ao) in
  let a := Broadcast a in
  if Discard a then (st, mkAccumulatorObj (Metrics_obj ao) a)
  else if (size (map_contents (field_maps st) fields) =? 0)%nat then
    (st, mkAccumulatorObj (Metrics_obj ao) a)
  else
    let '(tagsCopy, tag_maps') := copy_fresh tags (tag_maps st) in
    let '(fieldsCopy, field_maps') := copy_fresh fields (field_maps st) in
    let st' := {| tag_maps := tag_maps'; field_maps := field_maps' |} in
    let t :=
      match timestamp with
      | t0 :: _ => t0
      | [] =>
          match TimeFunc a with
          | None => now
          | Some f => f tt
          end
      end in
    let m := {| obj_Measurement := measurement;
                obj_Fields := Some fieldsCopy;
                obj_Tags := Some tagsCopy;
                obj_Time := t;
                obj_Type := tp |} in
    (st',
     mkAccumulatorObj (Metrics_obj ao ++ [m])
       (set_accumulated
          (accumulated a ++ [FromTestMetric (read_Metric st' m)]) a)).

Definition AddFields_obj now measurement fields tags timestamp :=
  addMeasurement_obj now measurement tags fields Untyped timestamp.

Definition AddCounter_obj now measurement fields tags timestamp :=
  addMeasurement_obj now measurement tags fields Counter timestamp.

Definition AddGauge_obj now measurement fields tags timestamp :=
  addMeasurement_obj now measurement tags fields Gauge timestamp.

Definition AddSummary_obj now measurement fields tags timestamp :=
  addMeasurement_obj now measurement tags fields Summary timestamp.

Definition AddHistogram_obj now measurement fields tags timestamp :=
  addMeasurement_obj now measurement tags fields Histogram timestamp.

(** ** Delivery tracker *)

(** Modelled from the spec: the Tracking Obligation of [metric/tracking.go]
    (not under src/):
    [{id, member-count, acknowledged-count, accepted-count, delivered}]. *)
Record Obligation := mkObligation {
  ob_id : TrackingID;
  member_count : Z;
  acknowledged_count : Z;
  ob_accepted_count : Z;
  ob_delivered : bool
}.

(** The obligations are objects shared by all members of a group, so they
    live in a store indexed by tracking id; [lastID] is the source of fresh
    ids. *)
Record Tracker := mkTracker {
  obligations : gmap TrackingID Obligation;
  lastID : N
}.

(** One accumulator together with the tracker whose notify callback is
    this accumulator's [onDelivery], and the notifications its consumers
    have received so far, oldest first. *)
Record World := mkWorld {
  acc : Accumulator;
  tracker : Tracker;
  consumed : list DeliveryInfo
}.

Definition zero_World : World :=
  {| acc := zero_Accumulator;
     tracker := {| obligations := ∅; lastID := 0 |};
     consumed := [] |}.

Definition with_acc (a : Accumulator) (w : World) : World :=
  {| acc := a; tracker := tracker w; consumed := consumed w |}.

(** A consumer takes delivery of what a call handed or returned to it. *)
Definition consume (got : option DeliveryInfo) (l : list DeliveryInfo)
  : list DeliveryInfo :=
  match got with
  | Some info => l ++ [info]
  | None => l
  end.

(** The obligation's remaining count. *)
Definition remaining (ob : Obligation) : Z :=
  (member_count ob - acknowledged_count ob)%Z.

(** Modelled from the spec: the creation of a Tracking Obligation for
    [n] members under a fresh id (metric/tracking.go, not under src/).  The
    result is the id and the tracker holding the new obligation. *)
Definition new_obligation (n : nat) (t : Tracker) : TrackingID * Tracker :=
  let id := (lastID t + 1)%N in
  let ob := {| ob_id := id;
               member_count := Z.of_nat n;
               acknowledged_count := 0;
               ob_accepted_count := 0;
               ob_delivered := false |} in
  (id, {| obligations := <[id := ob]> (obligations t); lastID := id |}).

(** Modelled from the spec: a measurement wrapped so that it refers to the
    obligation [id]. *)
Definition tracked (id : TrackingID) (m : telegraf_Metric) : telegraf_Metric :=
  mkTelegrafMetric (m_Name m) (m_Tags m) (m_Fields m) (m_Time m) (m_Type m)
    (Some id).

(** Modelled from the spec: [metric.WithGroupTracking] (metric/tracking.go,
    not under src/): "wraps N measurements under one shared obligation
    (member-count = N)". *)
Definition WithGroupTracking (group : list telegraf_Metric) (t : Tracker)
  : list telegraf_Metric * TrackingID * Tracker :=
  let '(id, t') := new_obligation (length group) t in
  (map (tracked id) group, id, t').

(** Modelled from the spec: [metric.WithTracking] (metric/tracking.go, not
    under src/): "wraps a single measurement with a fresh obligation
    (member-count = 1)". *)
Definition WithTracking_metric (m : telegraf_Metric) (t : Tracker)
  : telegraf_Metric * TrackingID * Tracker :=
  let '(id, t') := new_obligation 1 t in
  (tracked id m, id, t').

Definition AddTrackingMetric (m : telegraf_Metric) (w : World)
  : TrackingID * World :=
  let '(dm, id, t') := WithTracking_metric m (tracker w) in
  (id, {| acc := AddMetric dm (acc w); tracker := t';
          consumed := consumed w |}).

Definition AddTrackingMetricGroup (group : list telegraf_Metric) (w : World)
  : TrackingID * World :=
  let '(db, id, t') := WithGroupTracking group (tracker w) in
  (id, {| acc := fold_left (fun a m => AddMetric m a) db (acc w);
          tracker := t';
          consumed := consumed w |}).

(** Modelled from the spec: [OnMemberDelivered(id, accepted)], the
    completion path of [metric/tracking.go] (not under src/): "decrements
    the obligation's remaining count, accumulates the accepted flag; when
    the remaining count reaches zero, constructs the terminal Delivery
    Notification and enqueues it on the notification queue".  The
    notification is [{id, delivered: true, accepted-count}] as in the
    spec's scenario; the enqueue is the accumulator's [onDelivery], the
    callback the source passes to the tracker; a resolved obligation is
    discarded, and resolving an id that does not exist is a fatal misuse. *)
Definition OnMemberDelivered (id : TrackingID) (accepted : bool) (w : World)
  : outcome World :=
  match obligations (tracker w) !! id with
  | None => Panic "unknown tracking id"
  | Some ob =>
      let ob' := {| ob_id := ob_id ob;
                    member_count := member_count ob;
                    acknowledged_count := (acknowledged_count ob + 1)%Z;
                    ob_accepted_count :=
                      (ob_accepted_count ob + if accepted then 1 else 0)%Z;
                    ob_delivered := ob_delivered ob |} in
      if (remaining ob' =? 0)%Z then
        let info := {| ID := ob_id ob';
                       Delivered_ := true;
                       accepted_count := ob_accepted_count ob' |} in
        match onDelivery info (acc w) with
        | Done (a', handed) =>
            Done {| acc := a';
                    tracker := {| obligations := delete id (obligations (tracker w));
                                  lastID := lastID (tracker w) |};
                    consumed := consume handed (consumed w) |}
        | Panic msg => Panic msg
        end
      else
        Done {| acc := acc w;
                tracker := {| obligations := <[id := ob']> (obligations (tracker w));
                              lastID := lastID (tracker w) |};
                consumed := consumed w |}
  end.

(** ** Operations as data, and runs *)

(** The calls a producer, a consumer or a test makes on the
    accumulator, with their arguments. *)
Inductive Op :=
| OpAddFields (now : time_Time) (measurement : string)
    (fields : gmap string FieldValue) (tags : gmap string string)
    (timestamp : list time_Time)
| OpAddCounter (now : time_Time) (measurement : string)
    (fields : gmap string FieldValue) (tags : gmap string string)
    (timestamp : list time_Time)
| OpAddGauge (now : time_Time) (measurement : string)
    (fields : gmap string FieldValue) (tags : gmap string string)
    (timestamp : list time_Time)
| OpAddSummary (now : time_Time) (measurement : string)
    (fields : gmap string FieldValue) (tags : gmap string string)
    (timestamp : list time_Time)
| OpAddHistogram (now : time_Time) (measurement : string)
    (fields : gmap string FieldValue) (tags : gmap string string)
    (timestamp : list time_Time)
| OpAddMetric (m : telegraf_Metric)
| OpAddMetrics (ms : list telegraf_Metric)
| OpAddError (err : option error)
| OpClearMetrics
| OpWithTracking (maxTracked : Z)
| OpAddTrackingMetric (m : telegraf_Metric)
| OpAddTrackingMetricGroup (group : list telegraf_Metric)
| OpOnDelivery (info : DeliveryInfo)
| OpOnMemberDelivered (id : TrackingID) (accepted : bool)
| OpRecv
| OpSetDebug (d : bool)
| OpSetDiscard (d : bool)
| OpSetTimeFunc (f : option (unit -> time_Time))
| OpWait (n : Z)
| OpWaitError (n : Z).

Definition lift_acc (f : Accumulator -> Accumulator) (w : World)
  : outcome World :=
  Done (with_acc (f (acc w)) w).

Definition lift_acc_outcome (f : Accumulator -> outcome Accumulator)
    (w : World) : outcome World :=
  match f (acc w) with
  | Done a' => Done (with_acc a' w)
  | Panic msg => Panic msg
  end.

Definition step (op : Op) (w : World) : outcome World :=
  match op with
  | OpAddFields now n f t ts => lift_acc (AddFields now n f t ts) w
  | OpAddCounter now n f t ts => lift_acc (AddCounter now n f t ts) w
  | OpAddGauge now n f t ts => lift_acc (AddGauge now n f t ts) w
  | OpAddSummary now n f t ts => lift_acc (AddSummary now n f t ts) w
  | OpAddHistogram now n f t ts => lift_acc (AddHistogram now n f t ts) w
  | OpAddMetric m => lift_acc (AddMetric m) w
  | OpAddMetrics ms => lift_acc (AddMetrics ms) w
  | OpAddError err => lift_acc (AddError err) w
  | OpClearMetrics => lift_acc ClearMetrics w
  | OpWithTracking n => lift_acc_outcome (WithTracking n) w
  | OpAddTrackingMetric m => Done (snd (AddTrackingMetric m w))
  | OpAddTrackingMetricGroup g => Done (snd (AddTrackingMetricGroup g w))
  | OpOnDelivery info =>
      match onDelivery info (acc w) with
      | Done (a', handed) =>
          Done {| acc := a'; tracker := tracker w;
                  consumed := consume handed (consumed w) |}
      | Panic msg => Panic msg
      end
  | OpOnMemberDelivered id accepted => OnMemberDelivered id accepted w
  | OpRecv =>
      let '(a', got) := recv (acc w) in
      Done {| acc := a'; tracker := tracker w;
              consumed := consume got (consumed w) |}
  | OpSetDebug d => lift_acc (SetDebug d) w
  | OpSetDiscard d => lift_acc (set_Discard d) w
  | OpSetTimeFunc f => lift_acc (set_TimeFunc f) w
  | OpWait n => lift_acc (fun a => fst (Wait n a)) w
  | OpWaitError n => lift_acc (fun a => fst (WaitError n a)) w
  end.

(** Running a sequence of calls; a panic ends the run. *)
Fixpoint run (ops : list Op) (w : World) : outcome World :=
  match ops with
  | [] => Done w
  | op :: ops' =>
      match step op w with
      | Done w' => run ops' w'
      | Panic msg => Panic msg
      end
  end.



(** ** Notions used to state the properties *)

(** The broadcast a condition variable receives, if one is allocated. *)
Definition woken (c : option nat) : option nat := S <$> c.

(** What every submission does before it decides whether to store:
    [atomic.AddUint64(&a.nMetrics, 1)] and the broadcast. *)
Definition counted (a : Accumulator) : Accumulator :=
  Broadcast (set_nMetrics (atomic_AddUint64 (nMetrics a) 1) a).


(** The field mapping of a call that submits one measurement ([None] for
    every other call). *)
Definition submitted_fields (op : Op) : option (gmap string FieldValue) :=
  match op with
  | OpAddFields _ _ f _ _
  | OpAddCounter _ _ f _ _
  | OpAddGauge _ _ f _ _
  | OpAddSummary _ _ f _ _
  | OpAddHistogram _ _ f _ _ => Some f
  | OpAddMetric m
  | OpAddTrackingMetric m => Some (m_Fields m)
  | _ => None
  end.

(** The snapshot of the stored measurements a reader gets. *)
Definition Snapshot (w : World) : list telegraf_Metric :=
  GetTelegrafMetrics (acc w).

(** A call that submits one measurement. *)
Definition is_submission (op : Op) : bool :=
  match submitted_fields op with
  | Some _ => true
  | None => false
  end.

(** The five typed entry points, each with the kind it records. *)
Definition Add_calls
  : list (ValueType *
          (time_Time -> string -> gmap string FieldValue ->
           gmap string string -> list time_Time ->
           Accumulator -> Accumulator)) :=
  [(Untyped, AddFields); (Counter, AddCounter); (Gauge, AddGauge);
   (Summary, AddSummary); (Histogram, AddHistogram)].

(** The two stored sequences have the same length. *)
Definition lengths_agree (a : Accumulator) : Prop :=
  length (Metrics a) = length (accumulated a).

(** [ClearMetrics], the one call that stores into the counter. *)
Definition is_clear (op : Op) : bool :=
  match op with
  | OpClearMetrics => true
  | _ => false
  end.

(** How many measurements a call submits, that is, how often it runs
    [atomic.AddUint64(&a.nMetrics, 1)]. *)
Definition submissions (op : Op) : nat :=
  match op with
  | OpAddFields _ _ _ _ _
  | OpAddCounter _ _ _ _ _
  | OpAddGauge _ _ _ _ _
  | OpAddSummary _ _ _ _ _
  | OpAddHistogram _ _ _ _ _
  | OpAddMetric _
  | OpAddTrackingMetric _ => 1
  | OpAddMetrics ms => length ms
  | OpAddTrackingMetricGroup g => length g
  | _ => 0
  end.

Definition total_submissions (ops : list Op) : nat :=
  foldr (fun op n => submissions op + n) 0 ops.

(** One increment of the [uint64] counter. *)
Definition incr64 (x : N) : N := atomic_AddUint64 x 1.

(** Every store goes through one of two shapes: the call only counts, or
    it counts and appends one entry to each sequence. *)
Inductive submitted (a : Accumulator) : Accumulator -> Prop :=
| submitted_dropped : submitted a (counted a)
| submitted_stored m tm :
    submitted a
      (set_accumulated (accumulated a ++ [tm])
         (set_Metrics (Metrics a ++ [m]) (counted a))).

(** The counter and the stored sequences are the same in two states. *)
Definition same_store (a a' : Accumulator) : Prop :=
  nMetrics a' = nMetrics a
  /\ Metrics a' = Metrics a
  /\ accumulated a' = accumulated a.


(** The obligation of a group of [n] members of which [k] have reported
    completion, [c] of them accepted. *)
Definition pending (id : TrackingID) (n k c : Z) : Obligation :=
  {| ob_id := id; member_count := n; acknowledged_count := k;
     ob_accepted_count := c; ob_delivered := false |}.

(** Every notification emitted so far, oldest first: those the consumers
    have received, then those still in the queue. *)
Definition notified (w : World) : list DeliveryInfo :=
  consumed w
    ++ match deliverChan (acc w) with
       | Some c => chan_buf c
       | None => []
       end.

(** A receiver only parks on an empty buffer. *)
Definition chan_wf (c : Chan) : Prop :=
  0 < chan_recvq c -> chan_buf c = [].


(** The accumulator's channel, if allocated, is well formed. *)
Definition acc_wf (a : Accumulator) : Prop :=
  forall c, deliverChan a = Some c -> chan_wf c.

(** The five typed entry points on references, each with the kind it
    records. *)
Definition Add_calls_obj
  : list (ValueType *
          (time_Time -> string -> map_ref -> map_ref -> list time_Time ->
           Store -> AccumulatorObj -> Store * AccumulatorObj)) :=
  [(Untyped, AddFields_obj); (Counter, AddCounter_obj); (Gauge, AddGauge_obj);
   (Summary, AddSummary_obj); (Histogram, AddHistogram_obj)].

(** A reference is nil or points to an object of the heap. *)
Definition ref_allocated {V : Type} (h : gmap positive (gmap string V))
    (r : map_ref) : Prop :=
  match r with
  | Some l => is_Some (h !! l)
  | None => True
  end.

(** The maps of the stored points are objects of the store. *)
Definition objs_allocated (st : Store) (ao : AccumulatorObj) : Prop :=
  Forall (fun o => ref_allocated (tag_maps st) (obj_Tags o)
                   /\ ref_allocated (field_maps st) (obj_Fields o))
    (Metrics_obj ao).

(** [st2] differs from [st1] at most in objects that [st0] already had:
    what it is for [st2] to come from [st1] by writes to maps that
    existed in [st0], the caller's among them. *)
Definition writes_to_old (st0 st1 st2 : Store) : Prop :=
  (forall l, tag_maps st0 !! l = None -> tag_maps st2 !! l = tag_maps st1 !! l)
  /\ (forall l, field_maps st0 !! l = None ->
                field_maps st2 !! l = field_maps st1 !! l).

(** ** Queries on the stored measurements *)

(** [Get]: the first stored point with the given measurement name
    ([nil, false] is [None]). *)
Fixpoint Get_loop (measurement : string) (ms : list Metric) : option Metric :=
  match ms with
  | [] => None
  | p :: ms' =>
      if decide (Measurement p = measurement) then Some p
      else Get_loop measurement ms'
  end.

Definition Get (measurement : string) (a : Accumulator) : option Metric :=
  Get_loop measurement (Metrics a).

(** [HasTag]: decided by the first point with the name. *)
Fixpoint HasTag_loop (measurement key : string) (ms : list Metric) : bool :=
  match ms with
  | [] => false
  | p :: ms' =>
      if decide (Measurement p = measurement) then
        match Tags p !! key with
        | Some _ => true
        | None => false
        end
      else HasTag_loop measurement key ms'
  end.

Definition HasTag (measurement key : string) (a : Accumulator) : bool :=
  HasTag_loop measurement key (Metrics a).

(** [TagSetValue]: the value in the first point with the name that has the
    tag. *)
Fixpoint TagSetValue_loop (measurement key : string) (ms : list Metric)
  : string :=
  match ms with
  | [] => ""
  | p :: ms' =>
      if decide (Measurement p = measurement) then
        match Tags p !! key with
        | Some v => v
        | None => TagSetValue_loop measurement key ms'
        end
      else TagSetValue_loop measurement key ms'
  end.

Definition TagSetValue (measurement key : string) (a : Accumulator)
  : string :=
  TagSetValue_loop measurement key (Metrics a).

(** [TagValue]: the value in the first point with the name, or [""] when
    that point lacks the tag. *)
Fixpoint TagValue_loop (measurement key : string) (ms : list Metric)
  : string :=
  match ms with
  | [] => ""
  | p :: ms' =>
      if decide (Measurement p = measurement) then
        match Tags p !! key with
        | None => ""
        | Some v => v
        end
      else TagValue_loop measurement key ms'
  end.

Definition TagValue (measurement key : string) (a : Accumulator) : string :=
  TagValue_loop measurement key (Metrics a).

(** [GatherError].  The gather function receives the accumulator, may call
    its methods, and returns a possibly-nil error. *)
Definition GatherError (gf : Accumulator -> Accumulator * option error)
    (a : Accumulator) : Accumulator * option error :=
  let '(a', err) := gf a in
  match err with
  | Some e => (a', Some e)
  | None =>
      match Errors a' with
      | e :: _ => (a', Some e)
      | [] => (a', None)
      end
  end.

(** [NFields]: [for _, pt := range a.Metrics { for range pt.Fields {
    counter++ } }]. *)
Definition NFields (a : Accumulator) : nat :=
  fold_left
    (fun counter pt => map_fold (fun _ _ counter => S counter) counter (Fields pt))
    (Metrics a) 0.

(** [HasTimestamp]: decided by the first point with the name. *)
Fixpoint HasTimestamp_loop (measurement : string) (timestamp : time_Time)
    (ms : list Metric) : bool :=
  match ms with
  | [] => false
  | p :: ms' =>
      if decide (Measurement p = measurement) then (timestamp =? Time_ p)%Z
      else HasTimestamp_loop measurement timestamp ms'
  end.

Definition HasTimestamp (measurement : string) (timestamp : time_Time)
    (a : Accumulator) : bool :=
  HasTimestamp_loop measurement timestamp (Metrics a).

(** [HasField]: some point with the name has the field. *)
Fixpoint HasField_loop (measurement field : string) (ms : list Metric)
  : bool :=
  match ms with
  | [] => false
  | p :: ms' =>
      if decide (Measurement p = measurement) then
        match Fields p !! field with
        | Some _ => true
        | None => HasField_loop measurement field ms'
        end
      else HasField_loop measurement field ms'
  end.

Definition HasField (measurement field : string) (a : Accumulator) : bool :=
  HasField_loop measurement field (Metrics a).

(** [HasMeasurement]. *)
Fixpoint HasMeasurement_loop (measurement : string) (ms : list Metric)
  : bool :=
  match ms with
  | [] => false
  | p :: ms' =>
      if decide (Measurement p = measurement) then true
      else HasMeasurement_loop measurement ms'
  end.

Definition HasMeasurement (measurement : string) (a : Accumulator) : bool :=
  HasMeasurement_loop measurement (Metrics a).

(** The type assertions [v, ok := value.(T)]: the value and [true], or the
    zero value of [T] and [false]. *)
Definition assert_int (value : FieldValue) : Z * bool :=
  match value with VInt z => (z, true) | _ => (0%Z, false) end.

Definition assert_int64 (value : FieldValue) : Z * bool :=
  match value with VInt64 z => (z, true) | _ => (0%Z, false) end.

Definition assert_int32 (value : FieldValue) : Z * bool :=
  match value with VInt32 z => (z, true) | _ => (0%Z, false) end.

Definition assert_uint64 (value : FieldValue) : N * bool :=
  match value with VUint64 n => (n, true) | _ => (0%N, false) end.

Definition assert_float64 (value : FieldValue) : N * bool :=
  match value with VFloat64 bits => (bits, true) | _ => (0%N, false) end.

Definition assert_string (value : FieldValue) : string * bool :=
  match value with VString s => (s, true) | _ => ("", false) end.

Definition assert_bool (value : FieldValue) : bool * bool :=
  match value with VBool b => (b, true) | _ => (false, false) end.

(** The inner loop of the typed accessors:
    [for fieldname, value := range p.Fields { if fieldname == field {
    return k(value) } }], over the entries of the map in the order the
    iteration yields them. *)
Fixpoint field_range {R : Type} (field : string) (k : FieldValue -> R)
    (entries : list (string * FieldValue)) : option R :=
  match entries with
  | [] => None
  | (fieldname, value) :: entries' =>
      if decide (fieldname = field) then Some (k value)
      else field_range field k entries'
  end.

(** The outer loop of the typed accessors: the points with the name, in
    order, until one has the field. *)
Fixpoint typed_field_loop {R : Type} (measurement field : string)
    (k : FieldValue -> R) (ms : list Metric) : option R :=
  match ms with
  | [] => None
  | p :: ms' =>
      if decide (Measurement p = measurement) then
        match field_range field k (map_to_list (Fields p)) with
        | Some r => Some r
        | None => typed_field_loop measurement field k ms'
        end
      else typed_field_loop measurement field k ms'
  end.

Definition HasIntField (measurement field : string) (a : Accumulator) : bool :=
  default false
    (typed_field_loop measurement field (fun v => (assert_int v).2) (Metrics a)).

Definition HasInt64Field (measurement field : string) (a : Accumulator)
  : bool :=
  default false
    (typed_field_loop measurement field (fun v => (assert_int64 v).2)
       (Metrics a)).

Definition HasInt32Field (measurement field : string) (a : Accumulator)
  : bool :=
  default false
    (typed_field_loop measurement field (fun v => (assert_int32 v).2)
       (Metrics a)).

Definition HasStringField (measurement field : string) (a : Accumulator)
  : bool :=
  default false
    (typed_field_loop measurement field (fun v => (assert_string v).2)
       (Metrics a)).

Definition HasUIntField (measurement field : string) (a : Accumulator)
  : bool :=
  default false
    (typed_field_loop measurement field (fun v => (assert_uint64 v).2)
       (Metrics a)).

Definition HasFloatField (measurement field : string) (a : Accumulator)
  : bool :=
  default false
    (typed_field_loop measurement field (fun v => (assert_float64 v).2)
       (Metrics a)).

Definition IntField (measurement field : string) (a : Accumulator)
  : Z * bool :=
  default (0%Z, false)
    (typed_field_loop measurement field assert_int (Metrics a)).

Definition Int64Field (measurement field : string) (a : Accumulator)
  : Z * bool :=
  default (0%Z, false)
    (typed_field_loop measurement field assert_int64 (Metrics a)).

Definition Uint64Field (measurement field : string) (a : Accumulator)
  : N * bool :=
  default (0%N, false)
    (typed_field_loop measurement field assert_uint64 (Metrics a)).

Definition Int32Field (measurement field : string) (a : Accumulator)
  : Z * bool :=
  default (0%Z, false)
    (typed_field_loop measurement field assert_int32 (Metrics a)).

Definition FloatField (measurement field : string) (a : Accumulator)
  : N * bool :=
  default (0%N, false)
    (typed_field_loop measurement field assert_float64 (Metrics a)).

Definition StringField (measurement field : string) (a : Accumulator)
  : string * bool :=
  default ("", false)
    (typed_field_loop measurement field assert_string (Metrics a)).

Definition BoolField (measurement field : string) (a : Accumulator)
  : bool * bool :=
  default (false, false)
    (typed_field_loop measurement field assert_bool (Metrics a)).

(** ** Notions used to state the properties of the queries *)

(** [len(m.FieldList()) != 0]. *)
Definition has_fields (m : telegraf_Metric) : bool :=
  negb (length (FieldList m) =? 0).

(** The notifications a sequence of calls passes to [onDelivery], in
    order. *)
Definition deliveries (ops : list Op) : list DeliveryInfo :=
  flat_map (fun op => match op with
                      | OpOnDelivery info => [info]
                      | _ => []
                      end) ops.

(** Calls that touch the notification queue in another way than
    [onDelivery] and a consumer's receive do: re-initialisation, and the
    tracker's completion path. *)
Definition resets_or_resolves (op : Op) : bool :=
  match op with
  | OpWithTracking _ | OpOnMemberDelivered _ _ => true
  | _ => false
  end.

(** How many broadcasts a call issues on an allocated condition variable:
    one per submitted measurement and one per non-nil error. *)
Definition broadcasts (op : Op) : nat :=
  match op with
  | OpAddError (Some _) => 1
  | _ => submissions op
  end.

Definition total_broadcasts (ops : list Op) : nat :=
  foldr (fun op n => broadcasts op + n) 0 ops.

(** The [ok] flags of the seven typed accessors for one measurement and
    field. *)
Definition accessor_oks (measurement field : string) (a : Accumulator)
  : list bool :=
  [ (IntField measurement field a).2;
    (Int64Field measurement field a).2;
    (Int32Field measurement field a).2;
    (Uint64Field measurement field a).2;
    (FloatField measurement field a).2;
    (StringField measurement field a).2;
    (BoolField measurement field a).2 ].

(** What a call that only submits measurements does to the accumulator:
    it appends to the stored sequences, broadcasts [n] times, and leaves
    the errors, the queue and the resolved-delivery list alone. *)
Definition grows (n : nat) (a a' : Accumulator) : Prop :=
  (exists ms tms,
     Metrics a' = Metrics a ++ ms /\ accumulated a' = accumulated a ++ tms)
  /\ Errors a' = Errors a
  /\ delivered a' = delivered a
  /\ deliverChan a' = deliverChan a
  /\ Cond a' = Nat.iter n woken (Cond a).

(** * plugins/inputs/mavlink: the caller of [AddMetric]

    [Start] launches a goroutine that ranges over the events of the MAVLink
    connection and submits one metric per frame.  The connection, the
    frames and the filter belong to a library and stay abstract;
    [convertEventFrameToMetric] (declared in the package, outside src/) and
    the metric's [AddTag] are parameters. *)

Module mavlink.

(** The events the loop switches on; every other event type is ignored. *)
Inductive Event (Frame : Type) :=
| EventFrame (frame : Frame)
| EventChannelOpen
| EventChannelClose
| EventOther.
Arguments EventFrame {Frame} frame.
Arguments EventChannelOpen {Frame}.
Arguments EventChannelClose {Frame}.
Arguments EventOther {Frame}.

(** [type Mavlink struct], the fields the reading goroutine uses. *)
Record Mavlink (Filter : Type) := mkMavlink {
  URL : string;
  filter : Filter;
  terminated : bool
}.
Arguments mkMavlink {Filter} URL filter terminated.
Arguments URL {Filter} m.
Arguments filter {Filter} m.
Arguments terminated {Filter} m.

(** [Stop]: [s.terminated = true]. *)
Definition Stop {Filter : Type} (s : Mavlink Filter) : Mavlink Filter :=
  mkMavlink (URL s) (filter s) true.

(** What happens while the goroutine runs: the connection delivers an
    event, or another goroutine calls [Stop]. *)
Inductive Occurrence (Frame : Type) :=
| Arrives (evt : Event Frame)
| Stopped.
Arguments Arrives {Frame} evt.
Arguments Stopped {Frame}.

(** The loop [for evt := range s.connection.Events() { ... }]; the list
    ends where the connection closes its channel.  The result is the
    accumulator and the debug log. *)
Fixpoint events_loop {Frame Filter : Type}
    (convertEventFrameToMetric : Frame -> Filter -> telegraf_Metric)
    (AddTag : string -> string -> telegraf_Metric -> telegraf_Metric)
    (s : Mavlink Filter) (occ : list (Occurrence Frame)) (a : Accumulator)
    (log : list string) : Accumulator * list string :=
  match occ with
  | [] => (a, log)
  | Stopped :: occ' =>
      events_loop convertEventFrameToMetric AddTag (Stop s) occ' a log
  | Arrives evt :: occ' =>
      if terminated s then (a, log)
      else
        match evt with
        | EventFrame frame =>
            let result := convertEventFrameToMetric frame (filter s) in
            let result := AddTag "source" (URL s) result in
            events_loop convertEventFrameToMetric AddTag s occ'
              (AddMetric result a) log
        | EventChannelOpen =>
            events_loop convertEventFrameToMetric AddTag s occ' a
              (log ++ ["Mavlink channel opened"])
        | EventChannelClose =>
            events_loop convertEventFrameToMetric AddTag s occ' a
              (log ++ ["Mavlink channel closed"])
        | EventOther =>
            events_loop convertEventFrameToMetric AddTag s occ' a log
        end
  end.

(** The goroutine of [Start]: [if s.terminated { return }], then the
    loop. *)
Definition Start_routine {Frame Filter : Type}
    (convertEventFrameToMetric : Frame -> Filter -> telegraf_Metric)
    (AddTag : string -> string -> telegraf_Metric -> telegraf_Metric)
    (s : Mavlink Filter) (occ : list (Occurrence Frame)) (a : Accumulator)
  : Accumulator * list string :=
  if terminated s then (a, [])
  else events_loop convertEventFrameToMetric AddTag s occ a [].

(** The frames delivered before the first call of [Stop]. *)
Fixpoint frames_before_stop {Frame : Type} (occ : list (Occurrence Frame))
  : list Frame :=
  match occ with
  | [] => []
  | Stopped :: _ => []
  | Arrives (EventFrame frame) :: occ' => frame :: frames_before_stop occ'
  | Arrives _ :: occ' => frames_before_stop occ'
  end.

End mavlink.
(** * Properties *)

(** ** Basic facts about the primitives *)

Section Primitives.

Context {V : Type}.

(** Copying a map entry by entry yields an equal map. *)
Lemma copy_map_id (m : gmap string V) : copy_map m = m.
Proof.
  unfold copy_map.
  rewrite map_fold_foldr.
  transitivity (list_to_map (M := gmap string V) (map_to_list m));
    [|apply list_to_map_to_list].
  induction (map_to_list m) as [|[k v] l IH]; simpl; [done|].
  by rewrite IH.
Qed.

Lemma size_nonzero (m : gmap string V) :
  m ≠ ∅ -> (size m =? 0)%nat = false.
Proof.
  intros Hne. apply Nat.eqb_neq. intros H0.
  apply Hne. by apply map_size_empty_iff.
Qed.

(** The copy on the heap: the new object is one no reference pointed
    to, it holds what the value-level copy holds, and every other object is
    as it was. *)
Lemma copy_fresh_spec (src : map_ref) (h : gmap positive (gmap string V)) :
  h !! (copy_fresh src h).1 = None
  /\ (copy_fresh src h).2 !! (copy_fresh src h).1
     = Some (copy_map (map_contents h src))
  /\ forall l, l ≠ (copy_fresh src h).1 ->
       (copy_fresh src h).2 !! l = h !! l.
Proof.
  unfold copy_fresh, copy_map. cbn [fst snd].
  set (c := fresh (dom h)).
  assert (Hc : h !! c = None).
  { apply not_elem_of_dom, is_fresh. }
  split; [done|].
  rewrite !map_fold_foldr.
  induction (map_to_list (map_contents h src)) as [|[k v] l IH]; cbn.
  { split; [apply lookup_insert_eq|].
    intros l Hl. by apply lookup_insert_ne. }
  destruct IH as [IHc IHo]. unfold map_assign at 1 3.
  split.
  - rewrite lookup_insert_eq, IHc. done.
  - intros l' Hl'. rewrite lookup_insert_ne by done. by apply IHo.
Qed.

End Primitives.

Lemma FieldList_nil_iff (m : telegraf_Metric) :
  FieldList m = [] <-> m_Fields m = ∅.
Proof. unfold FieldList. apply map_to_list_empty_iff. Qed.

Lemma atomic_AddUint64_small (x d : N) :
  (x + d < 2 ^ 64)%N -> atomic_AddUint64 x d = (x + d)%N.
Proof. intros H. unfold atomic_AddUint64. by apply N.mod_small. Qed.

Lemma Broadcast_eq (a : Accumulator) :
  Broadcast a = set_Cond (woken (Cond a)) a.
Proof. unfold Broadcast. by destruct a as [? ? ? ? ? ? ? ? ? []]. Qed.

(** A waiter allocates the condition variable before it can park, so
    every parked waiter is reached by the broadcasts counted in [Cond]. *)
Lemma Wait_allocates_Cond (n : Z) (a : Accumulator) :
  is_Some (Cond (Wait n a).1) /\ is_Some (Cond (WaitError n a).1).
Proof.
  unfold Wait, WaitError, NewCond_if_nil. cbn [fst].
  destruct (Cond a) as [g|] eqn:Hc; rewrite ?Hc; by split.
Qed.

(** ** Ingestion *)

Section Ingestion.

Variables (now : time_Time) (measurement : string).
Variables (tags : gmap string string) (fields : gmap string FieldValue).
Variables (tp : ValueType) (timestamp : list time_Time).

Lemma counted_frame (a : Accumulator) :
  nMetrics (counted a) = atomic_AddUint64 (nMetrics a) 1
  /\ Metrics (counted a) = Metrics a
  /\ accumulated (counted a) = accumulated a
  /\ Discard (counted a) = Discard a
  /\ Errors (counted a) = Errors a
  /\ deliverChan (counted a) = deliverChan a
  /\ TimeFunc (counted a) = TimeFunc a
  /\ Cond (counted a) = woken (Cond a).
Proof. unfold counted. rewrite Broadcast_eq. by repeat split. Qed.

Lemma addMeasurement_discard (a : Accumulator) :
  Discard a = true ->
  addMeasurement now measurement tags fields tp timestamp a = counted a.
Proof.
  intros Hd. unfold addMeasurement.
  fold (counted a).
  destruct (counted_frame a) as (_ & _ & _ & Hd' & _).
  by rewrite Hd', Hd.
Qed.

Lemma addMeasurement_no_fields (a : Accumulator) :
  fields = ∅ ->
  addMeasurement now measurement tags fields tp timestamp a = counted a.
Proof.
  intros ->. unfold addMeasurement.
  fold (counted a).
  by destruct (Discard (counted a)).
Qed.

Lemma addMeasurement_stored (a : Accumulator) :
  Discard a = false ->
  fields ≠ ∅ ->
  addMeasurement now measurement tags fields tp timestamp a =
    let t := match timestamp with
             | t0 :: _ => t0
             | [] => match TimeFunc a with
                     | None => now
                     | Some f => f tt
                     end
             end in
    let m := mkMetric measurement tags fields t tp in
    set_accumulated (accumulated a ++ [FromTestMetric m])
      (set_Metrics (Metrics a ++ [m]) (counted a)).
Proof.
  intros Hd Hf. unfold addMeasurement.
  fold (counted a).
  destruct (counted_frame a) as (_ & HM & HA & Hd' & _ & _ & HT & _).
  rewrite Hd', Hd, (size_nonzero _ Hf), !copy_map_id, HT.
  cbn zeta. cbn [accumulated set_Metrics].
  by rewrite HM, HA.
Qed.

End Ingestion.

Lemma AddMetric_discard (m : telegraf_Metric) (a : Accumulator) :
  Discard a = true -> AddMetric m a = counted a.
Proof.
  intros Hd. unfold AddMetric. fold (counted a).
  destruct (counted_frame a) as (_ & _ & _ & Hd' & _).
  by rewrite Hd', Hd.
Qed.

Lemma AddMetric_no_fields (m : telegraf_Metric) (a : Accumulator) :
  m_Fields m = ∅ -> AddMetric m a = counted a.
Proof.
  intros Hf. unfold AddMetric. fold (counted a).
  apply FieldList_nil_iff in Hf. rewrite Hf. simpl.
  by destruct (Discard (counted a)).
Qed.

Lemma AddMetric_stored (m : telegraf_Metric) (a : Accumulator) :
  Discard a = false ->
  m_Fields m ≠ ∅ ->
  AddMetric m a =
    set_accumulated (accumulated a ++ [m])
      (set_Metrics (Metrics a ++ [ToTestMetric m]) (counted a)).
Proof.
  intros Hd Hf. unfold AddMetric. fold (counted a).
  destruct (counted_frame a) as (_ & HM & HA & Hd' & _).
  rewrite Hd', Hd.
  destruct (FieldList m) eqn:HL.
  { apply FieldList_nil_iff in HL. contradiction. }
  cbn [length Nat.eqb accumulated set_Metrics]. by rewrite HM, HA.
Qed.

(** A call that submits one measurement never panics, and when the
    discard-flag is set or the fields are empty it only counts. *)
Lemma step_submission_dropped (op : Op) (f : gmap string FieldValue)
    (w : World) :
  submitted_fields op = Some f ->
  Discard (acc w) = true \/ f = ∅ ->
  exists w', step op w = Done w' /\ acc w' = counted (acc w).
Proof.
  intros Hop Hdrop.
  destruct op; simplify_eq/=; eexists; (split; [reflexivity|]); simpl;
    unfold AddFields, AddCounter, AddGauge, AddSummary, AddHistogram;
    destruct Hdrop as [Hd | Hf];
    auto using addMeasurement_discard, addMeasurement_no_fields,
      AddMetric_discard, AddMetric_no_fields.
Qed.

(** C2.  A measurement submitted with an empty field mapping, through any
    of the Add calls, increments the ingestion counter by one (as a
    [uint64]) and leaves both stored sequences, hence the snapshot,
    unchanged. *)
Theorem empty_fields_counted_not_stored (op : Op) (w : World) :
  submitted_fields op = Some ∅ ->
  exists w', step op w = Done w'
    /\ NMetrics (acc w') = atomic_AddUint64 (NMetrics (acc w)) 1
    /\ ((NMetrics (acc w) + 1 < 2 ^ 64)%N ->
        NMetrics (acc w') = (NMetrics (acc w) + 1)%N)
    /\ Metrics (acc w') = Metrics (acc w)
    /\ accumulated (acc w') = accumulated (acc w)
    /\ Snapshot w' = Snapshot w.
Proof.
  intros Hop.
  destruct (step_submission_dropped op ∅ w Hop) as (w' & Hstep & Hacc);
    [by right|].
  exists w'. split; [done|].
  destruct (counted_frame (acc w)) as (Hn & HM & HA & _).
  unfold Snapshot, GetTelegrafMetrics, NMetrics. rewrite Hacc, Hn, HM, HA.
  repeat split. intros Hlt. by apply atomic_AddUint64_small.
Qed.

Lemma empty_fields_counted_not_stored_witness :
  exists w',
    step (OpAddCounter 7%Z "cpu" ∅ {["host" := "a"]} []) zero_World = Done w'
    /\ NMetrics (acc w') = 1%N
    /\ Snapshot w' = [].
Proof.
  destruct (empty_fields_counted_not_stored
              (OpAddCounter 7%Z "cpu" ∅ {["host" := "a"]} []) zero_World
              eq_refl)
    as (w' & Hstep & _ & Hn & _ & _ & HS).
  exists w'. split; [exact Hstep|].
  split; [apply Hn; reflexivity | exact HS].
Defined.

(** ** Discard mode *)

Lemma run_discard (ops : list Op) (w : World) :
  Discard (acc w) = true ->
  Forall (fun op => is_submission op = true) ops ->
  exists w', run ops w = Done w'
    /\ acc w' = Nat.iter (length ops) counted (acc w).
Proof.
  intros Hd Hops. revert w Hd.
  induction Hops as [|op ops Hop _ IH]; intros w Hd; simpl.
  { by exists w. }
  unfold is_submission in Hop.
  destruct (submitted_fields op) as [f|] eqn:Hf; [|done].
  destruct (step_submission_dropped op f w Hf) as (w1 & Hstep & Hacc);
    [by left|].
  rewrite Hstep.
  destruct (IH w1) as (w' & Hrun & Hacc').
  { rewrite Hacc. destruct (counted_frame (acc w)) as (_ & _ & _ & -> & _).
    done. }
  exists w'. split; [done|].
  rewrite Hacc', Hacc. symmetry.
  apply (Nat.iter_succ_r (length ops) counted (acc w)).
Qed.

Lemma iter_counted (n : nat) (a : Accumulator) :
  nMetrics (Nat.iter n counted a)
    = Nat.iter n incr64 (nMetrics a)
  /\ Metrics (Nat.iter n counted a) = Metrics a
  /\ accumulated (Nat.iter n counted a) = accumulated a
  /\ Discard (Nat.iter n counted a) = Discard a
  /\ Cond (Nat.iter n counted a) = Nat.iter n woken (Cond a).
Proof.
  induction n as [|n (IHn & IHM & IHA & IHD & IHC)]; [done|].
  rewrite !Nat.iter_succ.
  destruct (counted_frame (Nat.iter n counted a))
    as (Hn & HM & HA & HD & _ & _ & _ & HC).
  by rewrite Hn, HM, HA, HD, HC, IHn, IHM, IHA, IHD, IHC.
Qed.

Lemma iter_incr_small (n : nat) (x : N) :
  (x + N.of_nat n < 2 ^ 64)%N ->
  Nat.iter n incr64 x = (x + N.of_nat n)%N.
Proof.
  induction n as [|n IH]; intros Hlt; [simpl; lia|].
  rewrite Nat.iter_succ, IH by lia.
  unfold incr64. rewrite atomic_AddUint64_small; lia.
Qed.

(** C5.  With the discard-flag set, every call that submits a measurement
    increments the ingestion counter (as a [uint64]) and broadcasts on the
    condition variable, and never appends to the stored sequences; five
    submissions into an accumulator whose counter is zero leave the counter
    at five and the snapshot as it was (empty, when it was empty). *)
Theorem discard_counts_without_storing (ops : list Op) (w : World) :
  Discard (acc w) = true ->
  Forall (fun op => is_submission op = true) ops ->
  exists w', run ops w = Done w'
    /\ NMetrics (acc w')
         = Nat.iter (length ops) incr64
             (NMetrics (acc w))
    /\ ((NMetrics (acc w) + N.of_nat (length ops) < 2 ^ 64)%N ->
        NMetrics (acc w') = (NMetrics (acc w) + N.of_nat (length ops))%N)
    /\ Cond (acc w') = Nat.iter (length ops) woken (Cond (acc w))
    /\ Metrics (acc w') = Metrics (acc w)
    /\ accumulated (acc w') = accumulated (acc w)
    /\ Snapshot w' = Snapshot w
    /\ (NMetrics (acc w) = 0%N -> Snapshot w = [] -> length ops = 5 ->
        NMetrics (acc w') = 5%N /\ Snapshot w' = []).
Proof.
  intros Hd Hops.
  destruct (run_discard ops w Hd Hops) as (w' & Hrun & Hacc).
  exists w'. split; [done|].
  destruct (iter_counted (length ops) (acc w)) as (Hn & HM & HA & _ & HC).
  unfold Snapshot, GetTelegrafMetrics, NMetrics.
  rewrite Hacc, Hn, HM, HA, HC.
  split; [reflexivity|].
  split; [apply iter_incr_small|].
  do 4 (split; [reflexivity|]).
  intros H0 HS H5. rewrite H5, H0. by split.
Qed.

Lemma discard_counts_without_storing_witness :
  let f : gmap string FieldValue := {["time_idle" := VInt 42]} in
  let ops := [OpAddFields 1%Z "cpu" f ∅ [];
              OpAddCounter 2%Z "cpu" f ∅ [9%Z];
              OpAddGauge 3%Z "mem" f ∅ [];
              OpAddMetric (mkTelegrafMetric "disk" ∅ f 4%Z Summary None);
              OpAddHistogram 5%Z "net" f ∅ []] in
  let w := with_acc (set_Discard true zero_Accumulator) zero_World in
  exists w', run ops w = Done w'
    /\ NMetrics (acc w') = 5%N /\ Snapshot w' = [].
Proof.
  intros f ops w.
  destruct (discard_counts_without_storing ops w eq_refl)
    as (w' & Hrun & _ & _ & _ & _ & _ & _ & H5).
  { repeat constructor. }
  exists w'. split; [exact Hrun|].
  apply H5; reflexivity.
Defined.


(** ** Errors *)

(** C8.  [AddError] with a non-nil error appends exactly that error to the
    end of the error sequence and broadcasts on the condition variable,
    changing nothing else; with a nil error it returns the accumulator
    as it was, so nothing is appended and no broadcast happens. *)
Theorem AddError_spec (a : Accumulator) (e : error) :
  AddError (Some e) a
    = set_Cond (woken (Cond a)) (set_Errors (Errors a ++ [e]) a)
  /\ Errors (AddError (Some e) a) = Errors a ++ [e]
  /\ Cond (AddError (Some e) a) = woken (Cond a)
  /\ AddError None a = a.
Proof.
  unfold AddError. rewrite Broadcast_eq. by repeat split.
Qed.

(** ** Clearing *)

(** C9.  [ClearMetrics] resets the ingestion counter to zero and empties
    both stored sequences; the error sequence, the discard-flag, the
    delivery channel and the resolved-delivery list (and the remaining
    fields) are unchanged. *)
Theorem ClearMetrics_frame (a : Accumulator) :
  NMetrics (ClearMetrics a) = 0%N
  /\ Metrics (ClearMetrics a) = []
  /\ accumulated (ClearMetrics a) = []
  /\ Errors (ClearMetrics a) = Errors a
  /\ Discard (ClearMetrics a) = Discard a
  /\ deliverChan (ClearMetrics a) = deliverChan a
  /\ delivered (ClearMetrics a) = delivered a
  /\ debug (ClearMetrics a) = debug a
  /\ TimeFunc (ClearMetrics a) = TimeFunc a
  /\ Cond (ClearMetrics a) = Cond a.
Proof. by repeat split. Qed.

(** ** The notification queue *)

(** A successful [onDelivery] is a successful send on the channel. *)
Lemma onDelivery_Done (info : DeliveryInfo) (a a' : Accumulator)
    (handed : option DeliveryInfo) :
  onDelivery info a = Done (a', handed) ->
  exists c c', deliverChan a = Some c
    /\ chan_try_send info c = Some (c', handed)
    /\ a' = set_deliverChan (Some c') a.
Proof.
  unfold onDelivery. intros H.
  destruct (deliverChan a) as [c|]; [|done].
  destruct (chan_try_send info c) as [[c' h]|] eqn:Hs; [|done].
  exists c, c'. by simplify_eq.
Qed.

(** The two ways a send succeeds. *)
Lemma chan_try_send_Some (info : DeliveryInfo) (c c' : Chan)
    (handed : option DeliveryInfo) :
  chan_try_send info c = Some (c', handed) ->
  (0 < chan_recvq c /\ handed = Some info
   /\ c' = mkChan (chan_cap c) (chan_buf c) (chan_recvq c - 1))
  \/ (chan_recvq c = 0 /\ length (chan_buf c) < chan_cap c
      /\ handed = None
      /\ c' = mkChan (chan_cap c) (chan_buf c ++ [info]) 0).
Proof.
  unfold chan_try_send. intros H.
  destruct (Nat.ltb_spec 0 (chan_recvq c)) as [Hq|Hq].
  { left. by simplify_eq. }
  destruct (Nat.ltb_spec (length (chan_buf c)) (chan_cap c)) as [Hr|Hr];
    [|done].
  right. assert (chan_recvq c = 0) as Hz by lia.
  rewrite Hz in H. by simplify_eq.
Qed.

Lemma chan_try_send_full (info : DeliveryInfo) (c : Chan) :
  chan_recvq c = 0 ->
  chan_cap c <= length (chan_buf c) ->
  chan_try_send info c = None.
Proof.
  intros Hq Hfull. unfold chan_try_send. rewrite Hq.
  change (0 <? 0) with false. cbv iota.
  apply Nat.ltb_ge in Hfull. by rewrite Hfull.
Qed.

(** C3, as amended.  When the notification queue already holds as many
    notifications as the capacity reserved by [WithTracking] and no
    consumer is blocked receiving from it, [onDelivery] panics with
    "channel is full".  It neither drops a notification silently nor
    blocks: every call either panics in this way or returns with the
    notification at the back of the queue or in the hands of a consumer
    that was waiting for it. *)
Theorem onDelivery_full_panics (info : DeliveryInfo) (a : Accumulator)
    (c : Chan) :
  deliverChan a = Some c ->
  chan_cap c <= length (chan_buf c) ->
  chan_recvq c = 0 ->
  onDelivery info a = Panic "channel is full"
  /\ (forall info' a0,
        onDelivery info' a0 = Panic "channel is full"
        \/ exists c0 c' a' handed,
             deliverChan a0 = Some c0
             /\ onDelivery info' a0 = Done (a', handed)
             /\ deliverChan a' = Some c'
             /\ ((handed = None /\ chan_buf c' = chan_buf c0 ++ [info'])
                 \/ (handed = Some info' /\ 0 < chan_recvq c0))).
Proof.
  intros Hc Hfull Hq. split.
  - unfold onDelivery. by rewrite Hc, chan_try_send_full.
  - intros info' a0. unfold onDelivery.
    destruct (deliverChan a0) as [c0|]; [|by left].
    destruct (chan_try_send info' c0) as [[c' handed]|] eqn:Hs; [|by left].
    right. exists c0, c', (set_deliverChan (Some c') a0), handed.
    split; [done|]. split; [done|]. split; [done|].
    destruct (chan_try_send_Some _ _ _ _ Hs)
      as [(Hq0 & -> & ->)|(_ & _ & -> & ->)]; [by right|by left].
Qed.

Lemma onDelivery_full_panics_witness :
  let d1 := mkDeliveryInfo 1%N true 1%Z in
  let d2 := mkDeliveryInfo 2%N true 0%Z in
  exists a0 a1,
    WithTracking 1%Z zero_Accumulator = Done a0
    /\ onDelivery d1 a0 = Done (a1, None)
    /\ onDelivery d2 a1 = Panic "channel is full".
Proof.
  intros d1 d2.
  exists (set_deliverChan (Some (mkChan 1 [] 0)) zero_Accumulator).
  exists (set_deliverChan (Some (mkChan 1 [d1] 0)) zero_Accumulator).
  split; [reflexivity|]. split; [reflexivity|].
  apply (onDelivery_full_panics d2
           (set_deliverChan (Some (mkChan 1 [d1] 0)) zero_Accumulator)
           (mkChan 1 [d1] 0) eq_refl).
  - simpl. lia.
  - reflexivity.
Defined.

(** C3, the claim as written fails for a queue of capacity 0 on which a
    consumer is already blocked: the queue holds as many notifications as
    its capacity (none), yet [onDelivery] does not panic, it hands the
    notification to the consumer. *)
Lemma onDelivery_unbuffered_handoff :
  let info := mkDeliveryInfo 1%N true 1%Z in
  exists a0 a1 a2 c,
    WithTracking 0%Z zero_Accumulator = Done a0
    /\ recv a0 = (a1, None)
    /\ deliverChan a1 = Some c
    /\ chan_cap c <= length (chan_buf c)
    /\ onDelivery info a1 = Done (a2, Some info)
    /\ onDelivery info a1 <> Panic "channel is full".
Proof.
  intros info.
  exists (set_deliverChan (Some (mkChan 0 [] 0)) zero_Accumulator).
  exists (set_deliverChan (Some (mkChan 0 [] 1)) zero_Accumulator).
  exists (set_deliverChan (Some (mkChan 0 [] 0)) zero_Accumulator).
  exists (mkChan 0 [] 1).
  split; [reflexivity|]. split; [reflexivity|]. split; [reflexivity|].
  split; [cbn; lia|]. split; [reflexivity|]. discriminate.
Qed.

(** ** Stored measurements *)

Lemma Add_calls_addMeasurement tp add :
  (tp, add) ∈ Add_calls ->
  forall now measurement fields tags timestamp a,
    add now measurement fields tags timestamp a
      = addMeasurement now measurement tags fields tp timestamp a.
Proof.
  unfold Add_calls. rewrite !elem_of_cons, elem_of_nil.
  intros [H|[H|[H|[H|[H|[]]]]]]; by simplify_eq.
Qed.

(** *** The same call on references *)

Lemma map_contents_copy {V : Type} (src : map_ref)
    (h : gmap positive (gmap string V)) :
  map_contents (copy_fresh src h).2 (Some (copy_fresh src h).1)
    = map_contents h src.
Proof.
  destruct (copy_fresh_spec src h) as (_ & Hc & _).
  cbn [map_contents]. rewrite Hc. cbn. apply copy_map_id.
Qed.

(** Objects that existed before a copy read the same after it. *)
Lemma map_contents_old {V : Type} (src r : map_ref)
    (h : gmap positive (gmap string V)) :
  ref_allocated h r ->
  map_contents (copy_fresh src h).2 r = map_contents h r.
Proof.
  destruct (copy_fresh_spec src h) as (Hfresh & _ & Hold).
  destruct r as [l|]; [|done]. intros [m Hl]. cbn [map_contents].
  rewrite Hold; [done|]. intros ->. congruence.
Qed.

(** The object built from the two copies reads as the caller's maps. *)
Lemma read_Metric_copy (st : Store) measurement (tags fields : map_ref)
    (t : time_Time) (tp : ValueType) :
  read_Metric
    (mkStore (copy_fresh tags (tag_maps st)).2
       (copy_fresh fields (field_maps st)).2)
    (mkMetricObj measurement (Some (copy_fresh tags (tag_maps st)).1)
       (Some (copy_fresh fields (field_maps st)).1) t tp)
  = mkMetric measurement (map_contents (tag_maps st) tags)
      (map_contents (field_maps st) fields) t tp.
Proof.
  unfold read_Metric.
  cbn [tag_maps field_maps obj_Tags obj_Fields obj_Measurement obj_Time
       obj_Type].
  by rewrite !map_contents_copy.
Qed.

Lemma addMeasurement_obj_dropped now measurement tags fields tp timestamp
    (st : Store) (ao : AccumulatorObj) :
  Discard (rest ao) = true \/ map_contents (field_maps st) fields = ∅ ->
  addMeasurement_obj now measurement tags fields tp timestamp st ao
    = (st, mkAccumulatorObj (Metrics_obj ao) (counted (rest ao))).
Proof.
  intros Hdrop. unfold addMeasurement_obj. fold (counted (rest ao)).
  destruct (counted_frame (rest ao)) as (_ & _ & _ & Hd & _).
  rewrite Hd. destruct (Discard (rest ao)); [done|].
  destruct Hdrop as [|Hf]; [done|]. by rewrite Hf.
Qed.

Lemma addMeasurement_obj_stored now measurement tags fields tp timestamp
    (st : Store) (ao : AccumulatorObj) :
  Discard (rest ao) = false ->
  map_contents (field_maps st) fields ≠ ∅ ->
  addMeasurement_obj now measurement tags fields tp timestamp st ao
    = let st' := mkStore (copy_fresh tags (tag_maps st)).2
                   (copy_fresh fields (field_maps st)).2 in
      let t := match timestamp with
               | t0 :: _ => t0
               | [] => match TimeFunc (rest ao) with
                       | None => now
                       | Some f => f tt
                       end
               end in
      let m := mkMetricObj measurement
                 (Some (copy_fresh tags (tag_maps st)).1)
                 (Some (copy_fresh fields (field_maps st)).1) t tp in
      (st',
       mkAccumulatorObj (Metrics_obj ao ++ [m])
         (set_accumulated
            (accumulated (rest ao) ++ [FromTestMetric (read_Metric st' m)])
            (counted (rest ao)))).
Proof.
  intros Hd Hf. unfold addMeasurement_obj. fold (counted (rest ao)).
  destruct (counted_frame (rest ao)) as (_ & _ & HA & Hd' & _ & _ & HT & _).
  rewrite Hd', Hd, (size_nonzero _ Hf), HT, HA.
  destruct (copy_fresh tags (tag_maps st)) as [ct tm].
  by destruct (copy_fresh fields (field_maps st)) as [cf fm].
Qed.

Lemma counted_set_Metrics (ms : list Metric) (a : Accumulator) :
  counted (set_Metrics ms a) = set_Metrics ms (counted a).
Proof. unfold counted. rewrite !Broadcast_eq. done. Qed.

(** The accumulator on references reads, in the store it leaves, as the
    accumulator on values does after the same call on what the caller's
    maps hold. *)
Lemma addMeasurement_obj_view now measurement tags fields tp timestamp
    (st : Store) (ao : AccumulatorObj) :
  objs_allocated st ao ->
  let r := addMeasurement_obj now measurement tags fields tp timestamp st ao in
  view r.1 r.2
    = addMeasurement now measurement (map_contents (tag_maps st) tags)
        (map_contents (field_maps st) fields) tp timestamp (view st ao).
Proof.
  intros Hall r. subst r.
  destruct (Discard (rest ao)) eqn:Hd.
  { rewrite addMeasurement_obj_dropped, addMeasurement_discard by auto.
    unfold view. cbn [fst snd Metrics_obj rest].
    by rewrite counted_set_Metrics. }
  destruct (decide (map_contents (field_maps st) fields = ∅)) as [Hf|Hf].
  { rewrite addMeasurement_obj_dropped, addMeasurement_no_fields by auto.
    unfold view. cbn [fst snd Metrics_obj rest].
    by rewrite counted_set_Metrics. }
  rewrite addMeasurement_obj_stored, addMeasurement_stored by done.
  cbn zeta. unfold view.
  cbn [fst snd Metrics_obj rest Metrics accumulated TimeFunc set_Metrics
       set_accumulated].
  rewrite counted_set_Metrics, map_app. cbn [map].
  assert (Hold : map (read_Metric
                        (mkStore (copy_fresh tags (tag_maps st)).2
                           (copy_fresh fields (field_maps st)).2))
                   (Metrics_obj ao)
                 = map (read_Metric st) (Metrics_obj ao)).
  { induction Hall as [|o objs [Ht Hfl] _ IH]; [done|].
    cbn [map]. rewrite IH. f_equal. unfold read_Metric.
    cbn [tag_maps field_maps]. by rewrite !map_contents_old. }
  rewrite Hold, !read_Metric_copy.
  by destruct (counted (rest ao)).
Qed.

Lemma Add_calls_obj_addMeasurement tp add :
  (tp, add) ∈ Add_calls_obj ->
  forall now measurement fields tags timestamp st ao,
    add now measurement fields tags timestamp st ao
      = addMeasurement_obj now measurement tags fields tp timestamp st ao.
Proof.
  unfold Add_calls_obj. rewrite !elem_of_cons, elem_of_nil.
  intros [H|[H|[H|[H|[H|[]]]]]]; by simplify_eq.
Qed.

Lemma ref_allocated_copy {V : Type} (src r : map_ref)
    (h : gmap positive (gmap string V)) :
  ref_allocated h r -> ref_allocated (copy_fresh src h).2 r.
Proof.
  destruct (copy_fresh_spec src h) as (Hfresh & _ & Hold).
  destruct r as [l|]; [|done]. intros [m Hl]. cbn.
  rewrite Hold; [by eexists|]. intros ->. congruence.
Qed.

(** C6.  A measurement submitted with a non-empty field mapping while the
    discard-flag is unset adds exactly one entry at the end of the stored
    sequences; its name, tags, fields and kind are exactly those supplied,
    and so is its timestamp when one is supplied.  A measurement handed
    over whole with [AddMetric] is likewise stored as one entry equal to
    it.  With the maps as the heap objects they are: the entry
    [addMeasurement] stores holds two map objects that did not exist before
    the call, so they are not the caller's; the call changes no object that
    existed; the accumulator then reads as the accumulator on values does;
    and whatever is later written to objects that existed before the call,
    the caller's maps among them, the stored entry still reads as what was
    supplied. *)
Theorem stored_entry_exact (a : Accumulator) :
  Discard a = false ->
  (forall tp add now measurement fields tags timestamp,
     (tp, add) ∈ Add_calls ->
     fields ≠ ∅ ->
     exists t,
       Metrics (add now measurement fields tags timestamp a)
         = Metrics a ++ [mkMetric measurement tags fields t tp]
       /\ GetTelegrafMetrics (add now measurement fields tags timestamp a)
         = GetTelegrafMetrics a
             ++ [mkTelegrafMetric measurement tags fields t tp None]
       /\ (forall T rest, timestamp = T :: rest -> t = T))
  /\ (forall m,
       m_Fields m ≠ ∅ ->
       Metrics (AddMetric m a)
         = Metrics a
             ++ [mkMetric (m_Name m) (m_Tags m) (m_Fields m) (m_Time m)
                   (m_Type m)]
       /\ GetTelegrafMetrics (AddMetric m a) = GetTelegrafMetrics a ++ [m])
  /\ (forall st ao tp add now measurement fields tags timestamp,
       view st ao = a ->
       objs_allocated st ao ->
       (tp, add) ∈ Add_calls_obj ->
       map_contents (field_maps st) fields ≠ ∅ ->
       let st' := (add now measurement fields tags timestamp st ao).1 in
       let ao' := (add now measurement fields tags timestamp st ao).2 in
       exists m ct cf t,
         Metrics_obj ao' = Metrics_obj ao ++ [m]
         /\ obj_Tags m = Some ct
         /\ obj_Fields m = Some cf
         /\ tag_maps st !! ct = None
         /\ field_maps st !! cf = None
         /\ (forall l, is_Some (tag_maps st !! l) ->
               tag_maps st' !! l = tag_maps st !! l)
         /\ (forall l, is_Some (field_maps st !! l) ->
               field_maps st' !! l = field_maps st !! l)
         /\ objs_allocated st' ao'
         /\ view st' ao'
            = addMeasurement now measurement
                (map_contents (tag_maps st) tags)
                (map_contents (field_maps st) fields) tp timestamp a
         /\ read_Metric st' m
            = mkMetric measurement (map_contents (tag_maps st) tags)
                (map_contents (field_maps st) fields) t tp
         /\ (forall T rest, timestamp = T :: rest -> t = T)
         /\ (forall st'', writes_to_old st st' st'' ->
               read_Metric st'' m = read_Metric st' m)).
Proof.
  intros Hd. split; [|split].
  - intros tp add now measurement fields tags timestamp Hadd Hf.
    rewrite (Add_calls_addMeasurement _ _ Hadd).
    rewrite (addMeasurement_stored _ _ _ _ _ _ _ Hd Hf).
    eexists. split; [reflexivity|]. split; [reflexivity|].
    by intros T rest ->.
  - intros m Hf. by rewrite (AddMetric_stored _ _ Hd Hf).
  - intros st ao tp add now measurement fields tags timestamp
      Hview Hall Hadd Hf st' ao'. subst st' ao'.
    rewrite (Add_calls_obj_addMeasurement _ _ Hadd).
    assert (Hd' : Discard (rest ao) = false).
    { by rewrite <- Hd, <- Hview. }
    pose proof (addMeasurement_obj_view now measurement tags fields tp
                  timestamp st ao Hall) as Hv.
    cbn zeta in Hv. rewrite Hview in Hv. revert Hv.
    rewrite addMeasurement_obj_stored by done. cbn zeta. cbn [fst snd].
    intros Hv.
    destruct (copy_fresh_spec tags (tag_maps st)) as (Hft & Hct & Hot).
    destruct (copy_fresh_spec fields (field_maps st)) as (Hff & Hcf & Hof).
    eexists _, _, _, _.
    split; [reflexivity|]. split; [reflexivity|]. split; [reflexivity|].
    split; [exact Hft|]. split; [exact Hff|].
    split; [|split; [|split; [|split; [exact Hv|split; [|split]]]]].
    + intros l [x Hl]. cbn. apply Hot. intros ->. congruence.
    + intros l [x Hl]. cbn. apply Hof. intros ->. congruence.
    + unfold objs_allocated. cbn [Metrics_obj tag_maps field_maps].
      apply Forall_app. split.
      * eapply Forall_impl; [exact Hall|]. intros o [Ht Hfl].
        split; by apply ref_allocated_copy.
      * constructor; [|constructor].
        unfold ref_allocated. cbn [obj_Tags obj_Fields].
        rewrite Hct, Hcf. split; by eexists.
    + apply read_Metric_copy.
    + by intros T rest0 ->.
    + intros st'' [Wt Wf]. unfold read_Metric.
      cbn [tag_maps field_maps obj_Tags obj_Fields obj_Measurement
           obj_Time obj_Type map_contents].
      cbn in Wt, Wf. by rewrite (Wt _ Hft), (Wf _ Hff).
Qed.


Lemma stored_entry_exact_witness :
  let T : time_Time := 1700000000%Z in
  let tags0 : gmap string string := {["host" := "a"]} in
  let f : gmap string FieldValue := {["time_idle" := VInt 42]} in
  let a := AddCounter 0%Z "cpu" f ∅ [T] zero_Accumulator in
  let st := mkStore {[1%positive := tags0]} {[1%positive := f]} in
  let ao := mkAccumulatorObj [] zero_Accumulator in
  let r := AddCounter_obj 0%Z "cpu" (Some 1%positive) (Some 1%positive) [T]
             st ao in
  (Metrics a = [mkMetric "cpu" ∅ f T Counter]
   /\ GetTelegrafMetrics a = [mkTelegrafMetric "cpu" ∅ f T Counter None])
  /\ exists m,
       Metrics_obj r.2 = [m]
       /\ obj_Tags m ≠ Some 1%positive
       /\ obj_Fields m ≠ Some 1%positive
       /\ read_Metric
            (mkStore (<[1%positive := ∅]> (tag_maps r.1))
               (<[1%positive := ∅]> (field_maps r.1))) m
          = mkMetric "cpu" tags0 f T Counter.
Proof.
  intros T tags0 f a st ao r.
  destruct (stored_entry_exact zero_Accumulator eq_refl)
    as (Hadd & _ & Hobj).
  split.
  - destruct (Hadd Counter AddCounter 0%Z "cpu" f ∅ [T])
      as (t & HM & HS & Ht).
    + unfold Add_calls. rewrite !elem_of_cons. auto.
    + apply insert_non_empty.
    + rewrite (Ht T [] eq_refl) in HM, HS. by split.
  - destruct (Hobj st ao Counter AddCounter_obj 0%Z "cpu" (Some 1%positive)
                (Some 1%positive) [T])
      as (m & ct & cf & t & HM & HT & HF & Hct & Hcf & _ & _ & _ & _
          & Hread & Ht & Himm).
    + reflexivity.
    + constructor.
    + unfold Add_calls_obj. rewrite !elem_of_cons. auto.
    + cbn. rewrite lookup_singleton_eq. apply insert_non_empty.
    + exists m. split; [exact HM|].
      assert (Hct1 : ct ≠ 1%positive).
      { intros ->. cbn in Hct. by rewrite lookup_singleton_eq in Hct. }
      assert (Hcf1 : cf ≠ 1%positive).
      { intros ->. cbn in Hcf. by rewrite lookup_singleton_eq in Hcf. }
      split; [rewrite HT; congruence|].
      split; [rewrite HF; congruence|].
      rewrite Himm.
      * rewrite Hread, (Ht T [] eq_refl). cbn.
        by rewrite !lookup_singleton_eq.
      * split; intros l Hl; cbn; apply lookup_insert_ne; intros <-;
          cbn in Hl; by rewrite lookup_singleton_eq in Hl.
Defined.

(** C7.  For each of the five typed Add calls that stores its measurement:
    when the timestamp argument is omitted, the stored time is what the
    injected [TimeFunc] returns, or the wall-clock reading at ingestion
    when no [TimeFunc] is set; when a timestamp is supplied the stored time
    is exactly that timestamp. *)
Theorem stored_time_source (a : Accumulator) tp add now measurement fields
    tags timestamp :
  (tp, add) ∈ Add_calls ->
  Discard a = false ->
  fields ≠ ∅ ->
  exists m,
    Metrics (add now measurement fields tags timestamp a) = Metrics a ++ [m]
    /\ accumulated (add now measurement fields tags timestamp a)
       = accumulated a ++ [FromTestMetric m]
    /\ (forall f, timestamp = [] -> TimeFunc a = Some f -> Time_ m = f tt)
    /\ (timestamp = [] -> TimeFunc a = None -> Time_ m = now)
    /\ (forall T rest, timestamp = T :: rest -> Time_ m = T).
Proof.
  intros Hadd Hd Hf.
  rewrite (Add_calls_addMeasurement _ _ Hadd).
  rewrite (addMeasurement_stored _ _ _ _ _ _ _ Hd Hf).
  eexists. split; [reflexivity|]. split; [reflexivity|].
  cbn [Time_]. split; [|split].
  - by intros f -> ->.
  - by intros -> ->.
  - by intros T rest ->.
Qed.

Lemma stored_time_source_witness :
  let fixed : unit -> time_Time := fun _ => 1000%Z in
  let a := set_TimeFunc (Some fixed) zero_Accumulator in
  exists m,
    Metrics (AddGauge 5%Z "mem" {["used" := VUint64 7]} ∅ [] a) = [m]
    /\ Time_ m = 1000%Z.
Proof.
  intros fixed a.
  destruct (stored_time_source a Gauge AddGauge 5%Z "mem"
              {["used" := VUint64 7]} ∅ [])
    as (m & HM & _ & Hf & _).
  - unfold Add_calls. set_solver.
  - reflexivity.
  - apply insert_non_empty.
  - exists m. split; [exact HM|]. by apply (Hf fixed).
Defined.

(** ** Effect of each call on the stored sequences and the counter *)

Lemma addMeasurement_submitted now measurement tags fields tp timestamp a :
  submitted a (addMeasurement now measurement tags fields tp timestamp a).
Proof.
  destruct (Discard a) eqn:Hd.
  { rewrite addMeasurement_discard by done. constructor. }
  destruct (decide (fields = ∅)) as [Hf|Hf].
  { rewrite addMeasurement_no_fields by done. constructor. }
  rewrite addMeasurement_stored by done. constructor.
Qed.

Lemma AddMetric_submitted m a : submitted a (AddMetric m a).
Proof.
  destruct (Discard a) eqn:Hd.
  { rewrite AddMetric_discard by done. constructor. }
  destruct (decide (m_Fields m = ∅)) as [Hf|Hf].
  { rewrite AddMetric_no_fields by done. constructor. }
  rewrite AddMetric_stored by done. constructor.
Qed.

Lemma submitted_nMetrics a a' :
  submitted a a' -> nMetrics a' = incr64 (nMetrics a).
Proof.
  destruct 1; cbn [nMetrics set_accumulated set_Metrics];
    by destruct (counted_frame a) as (-> & _).
Qed.

Lemma submitted_lengths a a' :
  submitted a a' -> lengths_agree a -> lengths_agree a'.
Proof.
  unfold lengths_agree.
  destruct (counted_frame a) as (_ & HM & HA & _).
  destruct 1; intros Hl.
  - by rewrite HM, HA.
  - cbn [Metrics accumulated set_accumulated set_Metrics].
    rewrite !length_app, Hl. done.
Qed.

Lemma fold_AddMetric_nMetrics ms a :
  nMetrics (fold_left (fun a m => AddMetric m a) ms a)
    = Nat.iter (length ms) incr64 (nMetrics a).
Proof.
  revert a. induction ms as [|m ms IH]; intros a; [done|].
  cbn [fold_left length]. rewrite IH, Nat.iter_succ_r.
  by rewrite (submitted_nMetrics _ _ (AddMetric_submitted m a)).
Qed.

Lemma fold_AddMetric_lengths ms a :
  lengths_agree a ->
  lengths_agree (fold_left (fun a m => AddMetric m a) ms a).
Proof.
  revert a. induction ms as [|m ms IH]; intros a Hl; [done|].
  cbn [fold_left]. apply IH.
  eapply submitted_lengths; [apply AddMetric_submitted | done].
Qed.

Lemma onDelivery_same_store info a a' handed :
  onDelivery info a = Done (a', handed) -> same_store a a'.
Proof.
  intros H. by destruct (onDelivery_Done _ _ _ _ H) as (c & c' & _ & _ & ->).
Qed.

Lemma OnMemberDelivered_same_store id accepted w w' :
  OnMemberDelivered id accepted w = Done w' -> same_store (acc w) (acc w').
Proof.
  unfold OnMemberDelivered. intros H.
  destruct (obligations (tracker w) !! id) as [ob|]; [|done].
  destruct (remaining _ =? 0)%Z.
  - destruct (onDelivery _ (acc w)) as [[a' handed]|] eqn:HD; [|done].
    simplify_eq/=. by eapply onDelivery_same_store.
  - by simplify_eq/=.
Qed.

Lemma recv_same_store a : same_store a (recv a).1.
Proof.
  unfold recv, Delivered.
  destruct (deliverChan a) as [c|]; [|done].
  by destruct (chan_recv c).
Qed.

Lemma NewCond_if_nil_same_store a : same_store a (NewCond_if_nil a).
Proof. unfold NewCond_if_nil. by destruct (Cond a). Qed.

Lemma same_store_lengths a a' :
  same_store a a' -> lengths_agree a -> lengths_agree a'.
Proof. unfold lengths_agree. by intros (_ & -> & ->). Qed.

(** What one call does to the counter and to the stored sequences. *)
Lemma step_effect (op : Op) (w w' : World) :
  step op w = Done w' ->
  (lengths_agree (acc w) -> lengths_agree (acc w'))
  /\ (is_clear op = false ->
      nMetrics (acc w')
        = Nat.iter (submissions op) incr64 (nMetrics (acc w))).
Proof.
  intros Hstep.
  assert (Hsub : forall (P : Prop) a', submitted (acc w) a' ->
            (lengths_agree (acc w) -> lengths_agree a')
            /\ (P -> nMetrics a' = Nat.iter 1 incr64 (nMetrics (acc w)))).
  { intros P a' Ha'. split; [by apply submitted_lengths|].
    intros _. by apply submitted_nMetrics. }
  assert (Hsame : forall (P : Prop) a', same_store (acc w) a' ->
            (lengths_agree (acc w) -> lengths_agree a')
            /\ (P -> nMetrics a' = Nat.iter 0 incr64 (nMetrics (acc w)))).
  { intros P a' Ha'. split; [by apply same_store_lengths|].
    intros _. apply Ha'. }
  destruct op; cbn [step] in Hstep; unfold lift_acc, lift_acc_outcome in Hstep;
    cbn [submissions is_clear].
  - simplify_eq. apply Hsub, addMeasurement_submitted.
  - simplify_eq. apply Hsub, addMeasurement_submitted.
  - simplify_eq. apply Hsub, addMeasurement_submitted.
  - simplify_eq. apply Hsub, addMeasurement_submitted.
  - simplify_eq. apply Hsub, addMeasurement_submitted.
  - simplify_eq. apply Hsub, AddMetric_submitted.
  - simplify_eq. cbn [acc with_acc]. unfold AddMetrics. split.
    + apply fold_AddMetric_lengths.
    + intros _. apply fold_AddMetric_nMetrics.
  - simplify_eq. apply Hsame. unfold AddError.
    destruct err; [|done]. rewrite Broadcast_eq. done.
  - simplify_eq. split; [done|]. done.
  - unfold WithTracking in Hstep. destruct (maxTracked <? 0)%Z; [done|].
    simplify_eq. by apply Hsame.
  - simplify_eq. apply Hsub, AddMetric_submitted.
  - simplify_eq. cbn [acc AddTrackingMetricGroup WithGroupTracking snd].
    rewrite <- (length_map (tracked (lastID (tracker w) + 1)%N) group).
    split.
    + apply fold_AddMetric_lengths.
    + intros _. apply fold_AddMetric_nMetrics.
  - destruct (onDelivery info (acc w)) as [[a' handed]|] eqn:HD; [|done].
    simplify_eq. apply Hsame. by eapply onDelivery_same_store.
  - apply Hsame. by eapply OnMemberDelivered_same_store.
  - pose proof (recv_same_store (acc w)) as HR.
    destruct (recv (acc w)) as [a' got]. simplify_eq. by apply Hsame.
  - simplify_eq. by apply Hsame.
  - simplify_eq. by apply Hsame.
  - simplify_eq. by apply Hsame.
  - simplify_eq. apply Hsame. apply NewCond_if_nil_same_store.
  - simplify_eq. apply Hsame. apply NewCond_if_nil_same_store.
Qed.

Lemma iter_incr64_add (n k : nat) (x : N) :
  Nat.iter n incr64 (Nat.iter k incr64 x) = Nat.iter (k + n) incr64 x.
Proof.
  induction n as [|n IH]; [by rewrite Nat.add_0_r|].
  by rewrite Nat.add_succ_r, !Nat.iter_succ, IH.
Qed.

(** The counter after a run without [ClearMetrics]: one [uint64] increment
    per submitted measurement. *)
Lemma run_nMetrics (ops : list Op) (w w' : World) :
  Forall (fun op => is_clear op = false) ops ->
  run ops w = Done w' ->
  nMetrics (acc w')
    = Nat.iter (total_submissions ops) incr64 (nMetrics (acc w)).
Proof.
  intros Hops. revert w.
  induction Hops as [|op ops Hop _ IH]; intros w Hrun; simpl in Hrun.
  { by simplify_eq. }
  destruct (step op w) as [w1|] eqn:Hstep; [|done].
  destruct (step_effect _ _ _ Hstep) as [_ Hn].
  rewrite (IH _ Hrun), (Hn Hop). cbn [total_submissions foldr].
  apply iter_incr64_add.
Qed.

(** ** The ingestion counter over a run *)

(** C4, as amended.  Over every sequence of calls that contains no
    [ClearMetrics] and does not take the 64-bit counter past [2^64 - 1],
    the ingestion counter never decreases: it grows by exactly the number
    of measurements submitted.  [ClearMetrics] sets it to zero. *)
Theorem counter_monotone_without_clear (ops : list Op) (w w' : World) :
  Forall (fun op => is_clear op = false) ops ->
  (NMetrics (acc w) + N.of_nat (total_submissions ops) < 2 ^ 64)%N ->
  run ops w = Done w' ->
  (NMetrics (acc w) <= NMetrics (acc w'))%N
  /\ NMetrics (acc w')
     = (NMetrics (acc w) + N.of_nat (total_submissions ops))%N
  /\ (forall a, NMetrics (ClearMetrics a) = 0%N).
Proof.
  intros Hops Hlt Hrun. unfold NMetrics in *.
  rewrite (run_nMetrics _ _ _ Hops Hrun), iter_incr_small by done.
  split; [lia|]. by split.
Qed.

Lemma counter_monotone_without_clear_witness :
  let f : gmap string FieldValue := {["value" := VFloat64 0]} in
  let m := mkTelegrafMetric "load" ∅ f 10%Z Gauge None in
  let ops := [OpAddMetric m; OpAddError (Some "timeout");
              OpAddMetrics [m; m]; OpWait 1%Z; OpAddFields 3%Z "x" ∅ ∅ []] in
  exists w', run ops zero_World = Done w' /\ NMetrics (acc w') = 4%N.
Proof.
  intros f m ops.
  exists (match run ops zero_World with Done w' => w' | Panic _ => zero_World end).
  split; [reflexivity|].
  refine (proj1 (proj2 (counter_monotone_without_clear ops zero_World _ _ _ _))).
  - repeat constructor.
  - reflexivity.
  - reflexivity.
Defined.

(** C4, the claim as written fails: [ClearMetrics] after one submission
    takes the counter from 1 back to 0. *)
Lemma ClearMetrics_decreases_counter :
  let m := mkTelegrafMetric "load" ∅ {["value" := VInt 1]} 10%Z Gauge None in
  exists w1 w2,
    step (OpAddMetric m) zero_World = Done w1
    /\ step OpClearMetrics w1 = Done w2
    /\ NMetrics (acc w1) = 1%N
    /\ NMetrics (acc w2) = 0%N
    /\ ~ (forall op w w', step op w = Done w' ->
            (NMetrics (acc w) <= NMetrics (acc w'))%N).
Proof.
  intros m.
  exists (with_acc (AddMetric m zero_Accumulator) zero_World).
  exists (with_acc (ClearMetrics (AddMetric m zero_Accumulator)) zero_World).
  split; [reflexivity|]. split; [reflexivity|].
  split; [reflexivity|]. split; [reflexivity|].
  intros Hmono.
  specialize (Hmono OpClearMetrics
                (with_acc (AddMetric m zero_Accumulator) zero_World)
                _ eq_refl).
  vm_compute in Hmono. by apply Hmono.
Qed.

(** ** The two stored sequences *)

(** C10.  After every call on the accumulator the test-format list
    [Metrics] and the list [accumulated] have the same length: the property
    holds of the zero value and every call of a run preserves it (a store
    appends one element to each, [ClearMetrics] empties both). *)
Theorem stored_sequences_same_length (ops : list Op) (w w' : World) :
  lengths_agree (acc w) ->
  run ops w = Done w' ->
  lengths_agree (acc w').
Proof.
  revert w. induction ops as [|op ops IH]; intros w Hl Hrun; simpl in Hrun.
  { by simplify_eq. }
  destruct (step op w) as [w1|] eqn:Hstep; [|done].
  apply (IH w1); [|done].
  by apply (step_effect _ _ _ Hstep).
Qed.

Lemma stored_sequences_same_length_witness :
  let f : gmap string FieldValue := {["value" := VInt 1]} in
  let m := mkTelegrafMetric "load" ∅ f 10%Z Gauge None in
  let ops := [OpAddMetric m; OpAddCounter 2%Z "cpu" f ∅ [];
              OpAddGauge 2%Z "cpu" ∅ ∅ []; OpWithTracking 2%Z;
              OpAddTrackingMetricGroup [m; m]; OpClearMetrics;
              OpAddSummary 4%Z "s" f ∅ [8%Z]] in
  exists w', run ops zero_World = Done w' /\ lengths_agree (acc w').
Proof.
  intros f m ops.
  exists (match run ops zero_World with Done w' => w' | Panic _ => zero_World end).
  split; [reflexivity|].
  apply (stored_sequences_same_length ops zero_World); reflexivity.
Defined.

(** ** Delivery tracking *)


Section Tracking.

Variable id : TrackingID.

Lemma fold_AddMetric_deliverChan ms a :
  deliverChan (fold_left (fun a m => AddMetric m a) ms a) = deliverChan a.
Proof.
  revert a. induction ms as [|m ms IH]; intros a; [done|].
  cbn [fold_left]. rewrite IH.
  destruct (AddMetric_submitted m a);
    cbn [deliverChan set_accumulated set_Metrics];
    by destruct (counted_frame a) as (_ & _ & _ & _ & _ & -> & _).
Qed.

(** Registering a group creates its obligation and emits nothing. *)
Lemma AddTrackingMetricGroup_registers group w :
  let r := AddTrackingMetricGroup group w in
  obligations (tracker r.2) !! r.1
    = Some (pending r.1 (Z.of_nat (length group)) 0 0)
  /\ deliverChan (acc r.2) = deliverChan (acc w)
  /\ notified r.2 = notified w.
Proof.
  cbn. split; [apply lookup_insert_eq|].
  unfold notified. cbn [acc consumed].
  by rewrite fold_AddMetric_deliverChan.
Qed.






End Tracking.

(** *** Well-formedness of the queue in reachable states *)

Lemma chan_try_send_wf info c c' handed :
  chan_try_send info c = Some (c', handed) -> chan_wf c -> chan_wf c'.
Proof.
  intros Hs Hwf.
  destruct (chan_try_send_Some _ _ _ _ Hs)
    as [(Hq & _ & ->)|(Hq & _ & _ & ->)]; unfold chan_wf in *; cbn.
  - intros _. by apply Hwf.
  - lia.
Qed.

Lemma chan_recv_wf c : chan_wf c -> chan_wf (chan_recv c).1.
Proof.
  unfold chan_wf, chan_recv. intros Hwf.
  destruct (chan_buf c) as [|info rest] eqn:Hb; cbn; [done|].
  intros Hq. by specialize (Hwf Hq).
Qed.

Lemma submitted_deliverChan a a' :
  submitted a a' -> deliverChan a' = deliverChan a.
Proof.
  destruct 1; cbn [deliverChan set_accumulated set_Metrics];
    by destruct (counted_frame a) as (_ & _ & _ & _ & _ & -> & _).
Qed.

Lemma step_acc_wf (op : Op) (w w' : World) :
  step op w = Done w' -> acc_wf (acc w) -> acc_wf (acc w').
Proof.
  intros Hstep Hwf.
  assert (Hkeep : forall a', deliverChan a' = deliverChan (acc w) ->
            acc_wf a').
  { intros a' Heq c Hc. apply Hwf. by rewrite <- Heq. }
  destruct op; cbn [step] in Hstep;
    unfold lift_acc, lift_acc_outcome in Hstep.
  1-5: simplify_eq; apply Hkeep, submitted_deliverChan,
         addMeasurement_submitted.
  - simplify_eq. apply Hkeep, submitted_deliverChan, AddMetric_submitted.
  - simplify_eq. apply Hkeep, fold_AddMetric_deliverChan.
  - simplify_eq. apply Hkeep. unfold AddError.
    destruct err; [|done]. by rewrite Broadcast_eq.
  - simplify_eq. by apply Hkeep.
  - unfold WithTracking in Hstep. destruct (maxTracked <? 0)%Z; [done|].
    simplify_eq. intros c Hc. cbn in Hc. simplify_eq.
    unfold chan_wf. cbn. lia.
  - simplify_eq. apply Hkeep, submitted_deliverChan, AddMetric_submitted.
  - simplify_eq. apply Hkeep.
    apply (proj1 (proj2 (AddTrackingMetricGroup_registers group w))).
  - destruct (onDelivery info (acc w)) as [[a' handed]|] eqn:HD; [|done].
    simplify_eq.
    destruct (onDelivery_Done _ _ _ _ HD) as (c & c' & Hc & Hs & ->).
    intros c0 Hc0. cbn in Hc0. simplify_eq.
    eapply chan_try_send_wf; [done|]. by apply Hwf.
  - unfold OnMemberDelivered in Hstep.
    destruct (obligations (tracker w) !! id) as [ob|]; [|done].
    destruct (remaining _ =? 0)%Z; [|by simplify_eq].
    destruct (onDelivery _ (acc w)) as [[a' handed]|] eqn:HD; [|done].
    simplify_eq.
    destruct (onDelivery_Done _ _ _ _ HD) as (c & c' & Hc & Hs & ->).
    intros c0 Hc0. cbn in Hc0. simplify_eq.
    eapply chan_try_send_wf; [done|]. by apply Hwf.
  - unfold recv, Delivered in Hstep.
    destruct (deliverChan (acc w)) as [c|] eqn:Hc; [|by simplify_eq].
    pose proof (chan_recv_wf c (Hwf c Hc)) as Hr.
    destruct (chan_recv c) as [c' got]. simplify_eq.
    intros c0 Hc0. cbn in Hc0. by simplify_eq.
  - simplify_eq. by apply Hkeep.
  - simplify_eq. by apply Hkeep.
  - simplify_eq. by apply Hkeep.
  - simplify_eq. apply Hkeep. cbn. unfold NewCond_if_nil.
    by destruct (Cond (acc w)).
  - simplify_eq. apply Hkeep. cbn. unfold NewCond_if_nil.
    by destruct (Cond (acc w)).
Qed.

Lemma run_acc_wf (ops : list Op) (w w' : World) :
  run ops w = Done w' -> acc_wf (acc w) -> acc_wf (acc w').
Proof.
  revert w. induction ops as [|op ops IH]; intros w Hrun Hwf; cbn in Hrun.
  - by simplify_eq.
  - destruct (step op w) as [w1|] eqn:Hs; [|done].
    apply (IH w1); [done|]. by eapply step_acc_wf.
Qed.

(** In every state a run reaches from the zero value, a consumer is parked
    only on an empty queue; so on a queue of capacity at least 1 whose
    buffer is full no consumer is parked. *)
Lemma reachable_full_no_receiver (ops : list Op) (w : World) (c : Chan) :
  run ops zero_World = Done w ->
  deliverChan (acc w) = Some c ->
  0 < chan_cap c ->
  chan_cap c <= length (chan_buf c) ->
  chan_recvq c = 0.
Proof.
  intros Hrun Hc Hcap Hfull.
  assert (Hwf : chan_wf c).
  { apply (run_acc_wf _ _ _ Hrun); done. }
  unfold chan_wf in Hwf.
  destruct (chan_recvq c) as [|q]; [done|].
  rewrite Hwf in Hfull by lia. cbn in Hfull. lia.
Qed.



(** * Queries *)

(** ** The loops *)

(** Ranging over the entries of a map for a key is a lookup, whatever the
    order of the iteration. *)
Lemma field_range_lookup {R : Type} (field : string) (k : FieldValue -> R)
    (m : gmap string FieldValue) :
  field_range field k (map_to_list m) = k <$> m !! field.
Proof.
  assert (Hl : forall l : list (string * FieldValue),
            field_range field k l
              = k <$> (list_to_map l : gmap string FieldValue) !! field).
  { induction l as [|[fieldname value] l IH]; cbn [field_range].
    { by rewrite list_to_map_nil, lookup_empty. }
    rewrite list_to_map_cons.
    destruct (decide (fieldname = field)) as [->|Hne].
    - by rewrite lookup_insert_eq.
    - by rewrite lookup_insert_ne. }
  by rewrite Hl, list_to_map_to_list.
Qed.

Lemma typed_field_loop_cons {R : Type} measurement field (k : FieldValue -> R)
    p ms :
  typed_field_loop measurement field k (p :: ms)
    = if decide (Measurement p = measurement) then
        match Fields p !! field with
        | Some v => Some (k v)
        | None => typed_field_loop measurement field k ms
        end
      else typed_field_loop measurement field k ms.
Proof.
  cbn [typed_field_loop]. rewrite field_range_lookup.
  destruct (decide _); [|done]. by destruct (Fields p !! field).
Qed.

Lemma Get_loop_app measurement l1 l2 :
  Get_loop measurement (l1 ++ l2)
    = match Get_loop measurement l1 with
      | Some p => Some p
      | None => Get_loop measurement l2
      end.
Proof.
  induction l1 as [|p l1 IH]; cbn; [done|]. by destruct (decide _).
Qed.

(** X18.  [HasMeasurement] and [Get] agree: the first reports a name
    exactly when the second finds a point for it. *)
Theorem HasMeasurement_Get measurement a :
  HasMeasurement measurement a = true <-> is_Some (Get measurement a).
Proof.
  unfold HasMeasurement, Get.
  induction (Metrics a) as [|p ms IH]; cbn.
  { split; [done|]. by intros [? ?]. }
  destruct (decide _); [|done]. split; [by eexists|done].
Qed.

Lemma HasMeasurement_false_Forall measurement ms :
  HasMeasurement_loop measurement ms = false
  <-> Forall (fun q => Measurement q ≠ measurement) ms.
Proof.
  induction ms as [|p ms IH]; cbn.
  { split; [by constructor|done]. }
  destruct (decide _) as [Heq|Hne].
  - split; [done|]. intros HF. inversion HF. contradiction.
  - rewrite IH. split; [by constructor|]. intros HF. by inversion HF.
Qed.

(** X1.  [Get] returns the oldest stored point with the given name: no
    point before it has that name; it returns nothing exactly when no
    stored point has the name. *)
Theorem Get_first_match (measurement : string) (a : Accumulator) :
  match Get measurement a with
  | Some p =>
      exists l1 l2,
        Metrics a = l1 ++ p :: l2
        /\ Measurement p = measurement
        /\ Forall (fun q => Measurement q ≠ measurement) l1
  | None => Forall (fun q => Measurement q ≠ measurement) (Metrics a)
  end.
Proof.
  unfold Get. induction (Metrics a) as [|p ms IH]; cbn.
  { constructor. }
  destruct (decide (Measurement p = measurement)) as [Heq|Hne].
  { exists [], ms. by repeat split. }
  destruct (Get_loop measurement ms) as [q|].
  - destruct IH as (l1 & l2 & -> & Hq & Hl1).
    exists (p :: l1), l2. repeat split; [done|]. by constructor.
  - by constructor.
Qed.

(** ** What each call leaves in place *)

Lemma counted_grows a : grows 1 a (counted a).
Proof.
  unfold counted. rewrite Broadcast_eq. unfold grows. cbn.
  split; [|done]. exists [], []. by rewrite !app_nil_r.
Qed.

Lemma submitted_grows a a' : submitted a a' -> grows 1 a a'.
Proof.
  destruct (counted_grows a) as ((ms & tms & HM & HA) & HE & HD & HC & HB).
  destruct 1 as [|m tm]; [apply counted_grows|].
  unfold grows. cbn [Metrics accumulated Errors delivered deliverChan Cond
                     set_accumulated set_Metrics].
  split; [by eexists _, _|done].
Qed.

Lemma grows_trans n k a a' a'' :
  grows n a a' -> grows k a' a'' -> grows (n + k) a a''.
Proof.
  intros ((ms & tms & HM & HA) & HE & HD & HC & HB)
         ((ms' & tms' & HM' & HA') & HE' & HD' & HC' & HB').
  unfold grows. split; [|split; [|split; [|split]]].
  - exists (ms ++ ms'), (tms ++ tms').
    by rewrite HM', HA', HM, HA, !app_assoc.
  - by rewrite HE', HE.
  - by rewrite HD', HD.
  - by rewrite HC', HC.
  - rewrite HB', HB, Nat.add_comm. symmetry. apply Nat.iter_add.
Qed.

Lemma fold_AddMetric_grows ms a :
  grows (length ms) a (fold_left (fun a m => AddMetric m a) ms a).
Proof.
  revert a. induction ms as [|m ms IH]; intros a; cbn [fold_left length].
  { unfold grows. split; [|done]. exists [], []. by rewrite !app_nil_r. }
  apply (grows_trans 1 (length ms) a (AddMetric m a)); [|apply IH].
  apply submitted_grows, AddMetric_submitted.
Qed.

(** A call that submits measurements grows the accumulator by exactly its
    submissions. *)
Lemma step_submissions_grow (op : Op) (w : World) :
  match op with
  | OpAddFields _ _ _ _ _ | OpAddCounter _ _ _ _ _ | OpAddGauge _ _ _ _ _
  | OpAddSummary _ _ _ _ _ | OpAddHistogram _ _ _ _ _ | OpAddMetric _
  | OpAddMetrics _ | OpAddTrackingMetric _ | OpAddTrackingMetricGroup _ =>
      exists w', step op w = Done w'
        /\ grows (submissions op) (acc w) (acc w')
        /\ consumed w' = consumed w
  | _ => True
  end.
Proof.
  destruct op; try exact I; cbn [step submissions]; unfold lift_acc;
    eexists; (split; [reflexivity|]); (split; [|reflexivity]);
    cbn [acc with_acc snd AddTrackingMetric AddTrackingMetricGroup
         WithTracking_metric WithGroupTracking new_obligation].
  1-5: apply submitted_grows, addMeasurement_submitted.
  - apply submitted_grows, AddMetric_submitted.
  - apply fold_AddMetric_grows.
  - apply submitted_grows, AddMetric_submitted.
  - rewrite <- (length_map (tracked (lastID (tracker w) + 1)%N) group).
    apply fold_AddMetric_grows.
Qed.

Lemma iter_woken_Some (n g : nat) :
  Nat.iter n woken (Some g) = Some (g + n).
Proof.
  induction n as [|n IH]; [cbn; by rewrite Nat.add_0_r|].
  rewrite Nat.iter_succ, IH. cbn. f_equal. lia.
Qed.

(** The parts of the accumulator that no call but the named ones touches:
    the stored sequences only grow unless the call is [ClearMetrics], the
    errors only grow, the resolved-delivery list is only ever emptied, and
    an allocated condition variable receives one broadcast per submitted
    measurement and per non-nil error. *)
Lemma step_keeps (op : Op) (w w' : World) :
  step op w = Done w' ->
  (is_clear op = false ->
   exists ms tms,
     Metrics (acc w') = Metrics (acc w) ++ ms
     /\ accumulated (acc w') = accumulated (acc w) ++ tms)
  /\ (exists es, Errors (acc w') = Errors (acc w) ++ es)
  /\ (delivered (acc w) = [] -> delivered (acc w') = [])
  /\ (forall g, Cond (acc w) = Some g ->
        Cond (acc w') = Some (g + broadcasts op)).
Proof.
  intros Hstep.
  set (keeps n a' :=
         (is_clear op = false ->
          exists ms tms,
            Metrics a' = Metrics (acc w) ++ ms
            /\ accumulated a' = accumulated (acc w) ++ tms)
         /\ (exists es, Errors a' = Errors (acc w) ++ es)
         /\ (delivered (acc w) = [] -> delivered a' = [])
         /\ (forall g, Cond (acc w) = Some g -> Cond a' = Some (g + n))).
  assert (Hgrow : forall n a', grows n (acc w) a' -> keeps n a').
  { intros n a' (HMA & HE & HD & _ & HB). split; [done|].
    split; [exists []; by rewrite app_nil_r|].
    split; [by rewrite HD|].
    intros g Hg. by rewrite HB, Hg, iter_woken_Some. }
  assert (Hsame : forall a',
            Metrics a' = Metrics (acc w) ->
            accumulated a' = accumulated (acc w) ->
            Errors a' = Errors (acc w) ->
            delivered a' = delivered (acc w) ->
            Cond a' = Cond (acc w) ->
            keeps 0 a').
  { intros a' HM HA HE HD HB.
    split; [intros _; exists [], []; by rewrite !app_nil_r|].
    split; [exists []; by rewrite app_nil_r|].
    split; [by rewrite HD|].
    intros g Hg. by rewrite HB, Hg, Nat.add_0_r. }
  pose proof (step_submissions_grow op w) as Hsub.
  destruct op; cbn [broadcasts submissions];
    try (destruct Hsub as (w1 & Hs & Hg & _); rewrite Hs in Hstep;
         simplify_eq; by apply Hgrow);
    clear Hsub; cbn [step] in Hstep;
    unfold lift_acc, lift_acc_outcome in Hstep.
  - (* AddError *)
    simplify_eq. cbn [acc with_acc]. unfold AddError.
    destruct err as [e|]; [|by apply Hsame].
    rewrite Broadcast_eq. cbn.
    split; [intros _; exists [], []; by rewrite !app_nil_r|].
    split; [by exists [e]|]. split; [done|].
    intros g ->. cbn. f_equal. lia.
  - (* ClearMetrics *)
    simplify_eq. cbn. split; [done|].
    split; [exists []; by rewrite app_nil_r|]. split; [done|].
    intros g ->. by rewrite Nat.add_0_r.
  - (* WithTracking *)
    unfold WithTracking in Hstep. destruct (maxTracked <? 0)%Z; [done|].
    simplify_eq. cbn.
    split; [intros _; exists [], []; by rewrite !app_nil_r|].
    split; [exists []; by rewrite app_nil_r|]. split; [done|].
    intros g ->. by rewrite Nat.add_0_r.
  - (* onDelivery *)
    destruct (onDelivery info (acc w)) as [[a' handed]|] eqn:HD; [|done].
    simplify_eq.
    destruct (onDelivery_Done _ _ _ _ HD) as (c & c' & _ & _ & ->).
    by apply Hsame.
  - (* OnMemberDelivered *)
    unfold OnMemberDelivered in Hstep.
    destruct (obligations (tracker w) !! id) as [ob|]; [|done].
    destruct (remaining _ =? 0)%Z; [|simplify_eq; by apply Hsame].
    destruct (onDelivery _ (acc w)) as [[a' handed]|] eqn:HD; [|done].
    simplify_eq.
    destruct (onDelivery_Done _ _ _ _ HD) as (c & c' & _ & _ & ->).
    by apply Hsame.
  - (* receive *)
    unfold recv, Delivered in Hstep.
    destruct (deliverChan (acc w)) as [c|];
      [|simplify_eq; by apply Hsame].
    destruct (chan_recv c) as [c' got]. simplify_eq. by apply Hsame.
  - simplify_eq. by apply Hsame.
  - simplify_eq. by apply Hsame.
  - simplify_eq. by apply Hsame.
  - (* Wait *)
    simplify_eq. cbn [acc with_acc Wait fst]. unfold NewCond_if_nil.
    destruct (Cond (acc w)) as [g0|] eqn:Hc; [by apply Hsame|].
    cbn. split; [intros _; exists [], []; by rewrite !app_nil_r|].
    split; [exists []; by rewrite app_nil_r|]. by split.
  - (* WaitError *)
    simplify_eq. cbn [acc with_acc WaitError fst]. unfold NewCond_if_nil.
    destruct (Cond (acc w)) as [g0|] eqn:Hc; [by apply Hsame|].
    cbn. split; [intros _; exists [], []; by rewrite !app_nil_r|].
    split; [exists []; by rewrite app_nil_r|]. by split.
Qed.

(** ** Properties of runs *)

Lemma run_appends (ops : list Op) (w w' : World) :
  Forall (fun op => is_clear op = false) ops ->
  run ops w = Done w' ->
  exists ms tms,
    Metrics (acc w') = Metrics (acc w) ++ ms
    /\ accumulated (acc w') = accumulated (acc w) ++ tms.
Proof.
  intros Hops. revert w.
  induction Hops as [|op ops Hop _ IH]; intros w Hrun; cbn in Hrun.
  { simplify_eq. exists [], []. by rewrite !app_nil_r. }
  destruct (step op w) as [w1|] eqn:Hstep; [|done].
  destruct (step_keeps _ _ _ Hstep) as (HMA & _).
  destruct (HMA Hop) as (ms1 & tms1 & HM1 & HA1).
  destruct (IH _ Hrun) as (ms & tms & HM & HA).
  exists (ms1 ++ ms), (tms1 ++ tms).
  by rewrite HM, HA, HM1, HA1, !app_assoc.
Qed.

(** X2.  The stored sequences are append-only: over every run without
    [ClearMetrics] the points stored before the run are still there, in the
    same order and at the same positions, followed by the newly stored
    ones. *)
Theorem stored_sequences_append_only (ops : list Op) (w w' : World) :
  Forall (fun op => is_clear op = false) ops ->
  run ops w = Done w' ->
  exists ms tms,
    Metrics (acc w') = Metrics (acc w) ++ ms
    /\ accumulated (acc w') = accumulated (acc w) ++ tms.
Proof. apply run_appends. Qed.

Lemma stored_sequences_append_only_witness :
  let f : gmap string FieldValue := {["value" := VInt 1]} in
  let m := mkTelegrafMetric "load" ∅ f 10%Z Gauge None in
  let ops := [OpAddCounter 2%Z "cpu" f ∅ []; OpAddError (Some "e");
              OpAddMetrics [m; m]] in
  let w := with_acc (AddMetric m zero_Accumulator) zero_World in
  exists w' tms,
    run ops w = Done w' /\ accumulated (acc w') = [m] ++ tms.
Proof.
  intros f m ops w.
  exists (match run ops w with Done w' => w' | Panic _ => w end).
  destruct (stored_sequences_append_only ops w
              (match run ops w with Done w' => w' | Panic _ => w end))
    as (ms & tms & _ & HA).
  - repeat constructor.
  - reflexivity.
  - exists tms. split; [reflexivity|exact HA].
Defined.

(** X3.  A first-match query that has found a point keeps returning the
    same answer however many measurements are stored afterwards, as long
    as the accumulator is not cleared: [Get] returns the same point, and
    [HasTag], [TagValue] and [HasTimestamp], which look at that point only,
    return what they returned. *)
Theorem first_match_stable (ops : list Op) (w w' : World)
    (measurement : string) (p : Metric) :
  Forall (fun op => is_clear op = false) ops ->
  run ops w = Done w' ->
  Get measurement (acc w) = Some p ->
  Get measurement (acc w') = Some p
  /\ (forall key,
        HasTag measurement key (acc w') = HasTag measurement key (acc w)
        /\ TagValue measurement key (acc w')
           = TagValue measurement key (acc w))
  /\ (forall t, HasTimestamp measurement t (acc w')
                = HasTimestamp measurement t (acc w)).
Proof.
  intros Hops Hrun HG.
  destruct (run_appends _ _ _ Hops Hrun) as (ms & _ & HM & _).
  unfold Get, HasTag, TagValue, HasTimestamp in *. rewrite HM. clear HM.
  induction (Metrics (acc w)) as [|q l IH]; [done|].
  cbn in *. destruct (decide (Measurement q = measurement)); [done|].
  by apply IH.
Qed.

Lemma first_match_stable_witness :
  let f : gmap string FieldValue := {["value" := VInt 1]} in
  let a := AddGauge 1%Z "cpu" f {["host" := "a"]} [5%Z] zero_Accumulator in
  let ops := [OpAddGauge 2%Z "cpu" f {["host" := "b"]} [6%Z]] in
  exists w',
    run ops (with_acc a zero_World) = Done w'
    /\ Get "cpu" (acc w') = Some (mkMetric "cpu" {["host" := "a"]} f 5%Z Gauge)
    /\ TagValue "cpu" "host" (acc w') = "a".
Proof.
  intros f a ops.
  exists (match run ops (with_acc a zero_World) with
          | Done w' => w' | Panic _ => zero_World end).
  destruct (first_match_stable ops (with_acc a zero_World)
              (match run ops (with_acc a zero_World) with
               | Done w' => w' | Panic _ => zero_World end)
              "cpu" (mkMetric "cpu" {["host" := "a"]} f 5%Z Gauge))
    as (HG & HT & _).
  - repeat constructor.
  - reflexivity.
  - reflexivity.
  - split; [reflexivity|]. split; [exact HG|].
    rewrite (proj2 (HT "host")). reflexivity.
Defined.

(** X4.  Errors are never removed: over every run, [ClearMetrics]
    included, the error sequence only grows at its end, so once
    [FirstError] reports an error it reports that same error for ever. *)
Theorem errors_append_only (ops : list Op) (w w' : World) :
  run ops w = Done w' ->
  (exists es, Errors (acc w') = Errors (acc w) ++ es)
  /\ (forall e, FirstError (acc w) = Some e -> FirstError (acc w') = Some e).
Proof.
  intros Hrun.
  assert (HE : exists es, Errors (acc w') = Errors (acc w) ++ es).
  { revert w Hrun. induction ops as [|op ops IH]; intros w Hrun;
      cbn in Hrun.
    { simplify_eq. exists []. by rewrite app_nil_r. }
    destruct (step op w) as [w1|] eqn:Hstep; [|done].
    destruct (step_keeps _ _ _ Hstep) as (_ & (es1 & HE1) & _).
    destruct (IH _ Hrun) as (es & HE).
    exists (es1 ++ es). by rewrite HE, HE1, app_assoc. }
  split; [done|].
  destruct HE as (es & HE). intros e. unfold FirstError. rewrite HE.
  by destruct (Errors (acc w)).
Qed.

Lemma errors_append_only_witness :
  let ops := [OpAddError (Some "first"); OpAddError None; OpClearMetrics;
              OpAddError (Some "second")] in
  exists w',
    run ops zero_World = Done w'
    /\ Errors (acc w') = ["first"; "second"]
    /\ FirstError (acc w') = Some "first".
Proof.
  intros ops.
  exists (match run ops zero_World with Done w' => w' | Panic _ => zero_World end).
  split; [reflexivity|]. split; [reflexivity|].
  destruct (errors_append_only [OpAddError None; OpClearMetrics;
                                OpAddError (Some "second")]
              (with_acc (AddError (Some "first") zero_Accumulator) zero_World)
              (match run ops zero_World with
               | Done w' => w' | Panic _ => zero_World end) eq_refl)
    as [_ HF].
  by apply HF.
Defined.

(** X5.  Nothing ever records a resolved delivery: [onDelivery] sends the
    notification on the channel and does not append it to the
    resolved-delivery list, so in every state reached from the zero value
    [NDelivered] is 0 and [GetDeliveries] is empty. *)
Theorem delivered_never_recorded (ops : list Op) (w w' : World) :
  delivered (acc w) = [] ->
  run ops w = Done w' ->
  NDelivered (acc w') = 0 /\ GetDeliveries (acc w') = [].
Proof.
  intros Hd Hrun.
  assert (HD : delivered (acc w') = []).
  { revert w Hd Hrun. induction ops as [|op ops IH]; intros w Hd Hrun;
      cbn in Hrun.
    { by simplify_eq. }
    destruct (step op w) as [w1|] eqn:Hstep; [|done].
    apply (IH w1); [|done].
    by apply (step_keeps _ _ _ Hstep). }
  unfold NDelivered, GetDeliveries. by rewrite HD.
Qed.

Lemma delivered_never_recorded_witness :
  let f : gmap string FieldValue := {["value" := VInt 1]} in
  let m := mkTelegrafMetric "a" ∅ f 10%Z Untyped None in
  let ops := [OpWithTracking 1%Z; OpAddTrackingMetric m;
              OpOnMemberDelivered 1%N true; OpRecv] in
  exists w',
    run ops zero_World = Done w'
    /\ consumed w' = [mkDeliveryInfo 1%N true 1%Z]
    /\ NDelivered (acc w') = 0.
Proof.
  intros f m ops.
  exists (match run ops zero_World with Done w' => w' | Panic _ => zero_World end).
  split; [reflexivity|]. split; [reflexivity|].
  apply (delivered_never_recorded ops zero_World); reflexivity.
Defined.

(** X6.  Once a waiter has allocated the condition variable it stays
    allocated, and it receives exactly one broadcast for every submitted
    measurement (stored or dropped) and for every non-nil error; no other
    call broadcasts. *)
Theorem one_broadcast_per_event (ops : list Op) (w w' : World) (g : nat) :
  Cond (acc w) = Some g ->
  run ops w = Done w' ->
  Cond (acc w') = Some (g + total_broadcasts ops).
Proof.
  revert w g. induction ops as [|op ops IH]; intros w g Hg Hrun;
    cbn in Hrun.
  { simplify_eq. cbn. by rewrite Nat.add_0_r. }
  destruct (step op w) as [w1|] eqn:Hstep; [|done].
  destruct (step_keeps _ _ _ Hstep) as (_ & _ & _ & HB).
  rewrite (IH w1 (g + broadcasts op)); [|by apply HB|done].
  unfold total_broadcasts. cbn [foldr]. f_equal. lia.
Qed.

Lemma one_broadcast_per_event_witness :
  let f : gmap string FieldValue := {["value" := VInt 1]} in
  let m := mkTelegrafMetric "a" ∅ f 10%Z Untyped None in
  let w := with_acc (Wait 3%Z zero_Accumulator).1 zero_World in
  let ops := [OpAddMetric m; OpAddError None; OpAddFields 1%Z "x" ∅ ∅ [];
              OpAddError (Some "e"); OpClearMetrics; OpAddMetrics [m; m]] in
  exists w', run ops w = Done w' /\ Cond (acc w') = Some 5.
Proof.
  intros f m w ops.
  exists (match run ops w with Done w' => w' | Panic _ => w end).
  split; [reflexivity|].
  apply (one_broadcast_per_event ops w _ 0); reflexivity.
Defined.

(** ** The notification queue over runs *)

Lemma notified_eq (w w' : World) :
  deliverChan (acc w') = deliverChan (acc w) ->
  consumed w' = consumed w ->
  notified w' = notified w.
Proof. unfold notified. by intros -> ->. Qed.

Lemma step_notified (op : Op) (w w' : World) :
  resets_or_resolves op = false ->
  acc_wf (acc w) ->
  step op w = Done w' ->
  notified w' = notified w ++ deliveries [op].
Proof.
  intros Hop Hwf Hstep.
  pose proof (step_submissions_grow op w) as Hsub.
  destruct op; try done; cbn [deliveries flat_map]; rewrite ?app_nil_r;
    try (destruct Hsub as (w1 & Hs & (_ & _ & _ & HC & _) & Hcons);
         rewrite Hs in Hstep; simplify_eq; by apply notified_eq);
    clear Hsub; cbn [step] in Hstep; unfold lift_acc in Hstep.
  - (* AddError *)
    simplify_eq. apply notified_eq; [|done]. cbn. unfold AddError.
    destruct err; [|done]. by rewrite Broadcast_eq.
  - (* ClearMetrics *)
    by simplify_eq.
  - (* onDelivery *)
    destruct (onDelivery info (acc w)) as [[a' handed]|] eqn:HD; [|done].
    simplify_eq.
    destruct (onDelivery_Done _ _ _ _ HD) as (c & c' & Hc & Hs & ->).
    unfold notified. cbn [acc consumed deliverChan set_deliverChan].
    rewrite Hc.
    destruct (chan_try_send_Some _ _ _ _ Hs)
      as [(Hq & -> & ->)|(_ & _ & -> & ->)]; cbn.
    + rewrite (Hwf c Hc Hq). by rewrite !app_nil_r.
    + by rewrite app_assoc.
  - (* receive *)
    unfold recv, Delivered in Hstep. unfold notified.
    destruct (deliverChan (acc w)) as [c|] eqn:Hc;
      [|simplify_eq; cbn; by rewrite Hc].
    unfold chan_recv in Hstep.
    destruct (chan_buf c) as [|info rest] eqn:Hb; simplify_eq; cbn.
    + done.
    + by rewrite <- app_assoc.
  - by simplify_eq.
  - by simplify_eq.
  - by simplify_eq.
  - simplify_eq. apply notified_eq; [|done]. cbn. unfold NewCond_if_nil.
    by destruct (Cond (acc w)).
  - simplify_eq. apply notified_eq; [|done]. cbn. unfold NewCond_if_nil.
    by destruct (Cond (acc w)).
Qed.

(** X7.  The notification queue neither loses, duplicates nor reorders:
    over every run in which tracking is not re-initialised, the
    notifications held by the consumers followed by those still queued are
    exactly the ones held before, followed by the ones [onDelivery] was
    called with, in call order, however sends and receives interleave. *)
Theorem queue_keeps_order (ops : list Op) (w w' : World) :
  Forall (fun op => resets_or_resolves op = false) ops ->
  acc_wf (acc w) ->
  run ops w = Done w' ->
  notified w' = notified w ++ deliveries ops.
Proof.
  intros Hops. revert w.
  induction Hops as [|op ops Hop _ IH]; intros w Hwf Hrun; cbn in Hrun.
  { simplify_eq. cbn. by rewrite app_nil_r. }
  destruct (step op w) as [w1|] eqn:Hstep; [|done].
  rewrite (IH w1); [|by eapply step_acc_wf|done].
  rewrite (step_notified _ _ _ Hop Hwf Hstep).
  cbn [deliveries flat_map]. by rewrite app_nil_r, app_assoc.
Qed.

Lemma queue_keeps_order_witness :
  let d1 := mkDeliveryInfo 1%N true 1%Z in
  let d2 := mkDeliveryInfo 2%N true 0%Z in
  let d3 := mkDeliveryInfo 3%N true 2%Z in
  let w := with_acc (set_deliverChan (Some (mkChan 2 [] 0)) zero_Accumulator)
             zero_World in
  let ops := [OpRecv; OpOnDelivery d1; OpOnDelivery d2; OpOnDelivery d3;
              OpRecv] in
  exists w',
    run ops w = Done w'
    /\ consumed w' = [d1; d2]
    /\ notified w' = [d1; d2; d3].
Proof.
  intros d1 d2 d3 w ops.
  exists (match run ops w with Done w' => w' | Panic _ => w end).
  split; [reflexivity|]. split; [reflexivity|].
  apply (queue_keeps_order ops w).
  - repeat constructor.
  - intros c Hc. cbn in Hc. simplify_eq. intros Hq. cbn in Hq. lia.
  - reflexivity.
Defined.

Lemma onDelivery_no_receiver (info : DeliveryInfo) (a : Accumulator)
    (c : Chan) :
  deliverChan a = Some c ->
  chan_recvq c = 0 ->
  onDelivery info a
    = if length (chan_buf c) <? chan_cap c then
        Done (set_deliverChan
                (Some (mkChan (chan_cap c) (chan_buf c ++ [info]) 0)) a,
              None)
      else Panic "channel is full".
Proof.
  intros Hc Hq. unfold onDelivery, chan_try_send. rewrite Hc, Hq.
  change (0 <? 0) with false. cbv iota.
  by destruct (length (chan_buf c) <? chan_cap c).
Qed.

Lemma run_onDelivery_buffer (infos : list DeliveryInfo) (w : World)
    (c : Chan) :
  deliverChan (acc w) = Some c ->
  chan_recvq c = 0 ->
  length (chan_buf c) <= chan_cap c ->
  (length (chan_buf c) + length infos <= chan_cap c ->
   exists w',
     run (map OpOnDelivery infos) w = Done w'
     /\ deliverChan (acc w')
        = Some (mkChan (chan_cap c) (chan_buf c ++ infos) 0)
     /\ consumed w' = consumed w)
  /\ (chan_cap c < length (chan_buf c) + length infos ->
      run (map OpOnDelivery infos) w = Panic "channel is full").
Proof.
  revert w c. induction infos as [|info infos IH]; intros w c Hc Hq Hwf.
  { cbn. split; [|lia]. intros _. exists w. rewrite app_nil_r, Hc.
    split; [done|]. split; [|done]. destruct c; cbn in *. by rewrite Hq. }
  cbn [map run step length].
  rewrite (onDelivery_no_receiver _ _ _ Hc Hq).
  destruct (Nat.ltb_spec (length (chan_buf c)) (chan_cap c)) as [Hlt|Hge].
  - destruct (IH {| acc := set_deliverChan
                             (Some (mkChan (chan_cap c)
                                      (chan_buf c ++ [info]) 0)) (acc w);
                    tracker := tracker w;
                    consumed := consume None (consumed w) |}
                (mkChan (chan_cap c) (chan_buf c ++ [info]) 0))
      as [Hfit Hover]; [done|done|cbn; rewrite length_app; cbn; lia|].
    cbn [chan_cap chan_buf] in Hfit, Hover.
    rewrite length_app in Hfit, Hover. cbn [length] in Hfit, Hover.
    rewrite <- app_assoc in Hfit. cbn [app] in Hfit.
    split.
    + intros Hle. apply Hfit. lia.
    + intros Hgt. apply Hover. lia.
  - split; [lia|done].
Qed.

(** X8.  [WithTracking(n)] reserves room for exactly [n] notifications:
    while no consumer receives, any [k <= n] calls of [onDelivery] succeed
    and leave their notifications queued in call order, whatever was queued
    before the call to [WithTracking]; with more than [n] calls the run
    panics with "channel is full". *)
Theorem WithTracking_reserves (n : Z) (infos : list DeliveryInfo)
    (w : World) (a0 : Accumulator) :
  WithTracking n (acc w) = Done a0 ->
  (length infos <= Z.to_nat n ->
   exists w',
     run (map OpOnDelivery infos) (with_acc a0 w) = Done w'
     /\ deliverChan (acc w') = Some (mkChan (Z.to_nat n) infos 0)
     /\ consumed w' = consumed w)
  /\ (Z.to_nat n < length infos ->
      run (map OpOnDelivery infos) (with_acc a0 w)
        = Panic "channel is full").
Proof.
  unfold WithTracking. intros HW.
  destruct (n <? 0)%Z; [done|]. simplify_eq.
  destruct (run_onDelivery_buffer infos
              (with_acc (set_delivered []
                           (set_deliverChan
                              (Some (mkChan (Z.to_nat n) [] 0)) (acc w))) w)
              (mkChan (Z.to_nat n) [] 0)) as [Hfit Hover];
    [done|done|cbn; lia|].
  cbn [chan_cap chan_buf length app] in Hfit, Hover.
  split; [exact Hfit|exact Hover].
Qed.

Lemma WithTracking_reserves_witness :
  let d1 := mkDeliveryInfo 1%N true 1%Z in
  let d2 := mkDeliveryInfo 2%N true 0%Z in
  let a0 := set_deliverChan (Some (mkChan 2 [] 0)) zero_Accumulator in
  (exists w',
     run (map OpOnDelivery [d1; d2]) (with_acc a0 zero_World) = Done w'
     /\ deliverChan (acc w') = Some (mkChan 2 [d1; d2] 0))
  /\ run (map OpOnDelivery [d1; d2; d1]) (with_acc a0 zero_World)
     = Panic "channel is full".
Proof.
  intros d1 d2 a0. split.
  - destruct (proj1 (WithTracking_reserves 2%Z [d1; d2] zero_World a0
                       eq_refl)) as (w' & Hrun & Hc & _).
    + cbn. lia.
    + by exists w'.
  - apply (proj2 (WithTracking_reserves 2%Z [d1; d2; d1] zero_World a0
                    eq_refl)).
    cbn. lia.
Defined.

(** ** Tag queries *)

(** X9.  [HasTag] and [TagValue] look at the first point with the name
    only, while [TagSetValue] goes on to later points; whenever [HasTag]
    holds for a measurement and a key, [TagSetValue] and [TagValue] return
    the same value. *)
Theorem tag_queries_agree (measurement key : string) (a : Accumulator) :
  HasTag measurement key a = true ->
  TagSetValue measurement key a = TagValue measurement key a.
Proof.
  unfold HasTag, TagSetValue, TagValue.
  induction (Metrics a) as [|p ms IH]; cbn; [done|].
  destruct (decide (Measurement p = measurement)); [|done].
  by destruct (Tags p !! key).
Qed.

Lemma tag_queries_agree_witness :
  let f : gmap string FieldValue := {["value" := VInt 1]} in
  let a := AddFields 1%Z "cpu" f {["host" := "a"]} []
             (AddFields 0%Z "mem" f ∅ [] zero_Accumulator) in
  TagSetValue "cpu" "host" a = "a" /\ TagValue "cpu" "host" a = "a".
Proof.
  intros f a.
  pose proof (tag_queries_agree "cpu" "host" a eq_refl) as H.
  split; [reflexivity|]. rewrite <- H. reflexivity.
Defined.

Lemma TagValue_nonempty_HasTag (measurement key : string) (a : Accumulator) :
  TagValue measurement key a ≠ "" -> HasTag measurement key a = true.
Proof.
  unfold HasTag, TagValue.
  induction (Metrics a) as [|p ms IH]; cbn; [done|].
  destruct (decide (Measurement p = measurement)); [|done].
  by destruct (Tags p !! key).
Qed.

(** ** Counting fields *)

Lemma count_entries {V : Type} (m : gmap string V) (c : nat) :
  map_fold (fun _ _ counter => S counter) c m = c + size m.
Proof.
  rewrite map_fold_foldr, <- length_map_to_list.
  induction (map_to_list m) as [|[k v] l IH]; cbn; [lia|].
  rewrite IH. lia.
Qed.

Lemma NFields_loop_app (l1 l2 : list Metric) (c : nat) :
  fold_left
    (fun counter pt =>
       map_fold (fun _ _ counter => S counter) counter (Fields pt))
    (l1 ++ l2) c
  = fold_left
      (fun counter pt =>
         map_fold (fun _ _ counter => S counter) counter (Fields pt))
      l2 0
    + fold_left
        (fun counter pt =>
           map_fold (fun _ _ counter => S counter) counter (Fields pt))
        l1 c.
Proof.
  rewrite fold_left_app.
  generalize (fold_left
    (fun counter pt =>
       map_fold (fun _ _ counter => S counter) counter (Fields pt)) l1 c).
  induction l2 as [|p l2 IH]; intros n; cbn; [done|].
  rewrite (IH (map_fold _ n (Fields p))), (IH (map_fold _ 0 (Fields p))).
  rewrite !count_entries. lia.
Qed.

(** X10.  [NFields] counts the fields of the stored points: a submission
    through [addMeasurement] raises it by the number of fields supplied
    when the point is stored and leaves it alone when the point is dropped
    (discard-flag set, or no fields); [ClearMetrics] takes it to 0. *)
Theorem NFields_addMeasurement now measurement tags fields tp timestamp
    (a : Accumulator) :
  NFields (addMeasurement now measurement tags fields tp timestamp a)
    = NFields a + (if Discard a then 0 else size fields)
  /\ NFields (ClearMetrics a) = 0.
Proof.
  split; [|done].
  destruct (Discard a) eqn:Hd.
  { rewrite addMeasurement_discard by done. unfold NFields.
    destruct (counted_frame a) as (_ & -> & _). lia. }
  destruct (decide (fields = ∅)) as [->|Hf].
  { rewrite addMeasurement_no_fields by done. unfold NFields.
    destruct (counted_frame a) as (_ & -> & _).
    rewrite map_size_empty. lia. }
  rewrite addMeasurement_stored by done. unfold NFields.
  cbn [Metrics set_accumulated set_Metrics].
  rewrite NFields_loop_app. cbn [fold_left Fields].
  rewrite count_entries. lia.
Qed.

(** ** Typed field accessors *)

(** X11.  A typed accessor reads the field from the first point that has
    the name and the field, skipping points of that name that lack the
    field, and independently of the order in which the map is ranged over;
    it finds nothing exactly when no point with the name has the field. *)
Theorem typed_accessor_first_with_field {R : Type}
    (measurement field : string) (k : FieldValue -> R) (a : Accumulator) :
  match typed_field_loop measurement field k (Metrics a) with
  | Some r =>
      exists l1 p l2 v,
        Metrics a = l1 ++ p :: l2
        /\ Measurement p = measurement
        /\ Fields p !! field = Some v
        /\ r = k v
        /\ Forall (fun q => Measurement q = measurement ->
                            Fields q !! field = None) l1
  | None =>
      Forall (fun q => Measurement q = measurement ->
                       Fields q !! field = None) (Metrics a)
  end.
Proof.
  induction (Metrics a) as [|p ms IH]; [by constructor|].
  rewrite typed_field_loop_cons.
  destruct (decide (Measurement p = measurement)) as [Heq|Hne].
  - destruct (Fields p !! field) as [v|] eqn:Hf.
    { exists [], p, ms, v. by repeat split. }
    destruct (typed_field_loop measurement field k ms) as [r|].
    + destruct IH as (l1 & q & l2 & v & -> & Hq & Hv & -> & Hl1).
      exists (p :: l1), q, l2, v. repeat split; try done.
      by constructor.
    + by constructor.
  - destruct (typed_field_loop measurement field k ms) as [r|].
    + destruct IH as (l1 & q & l2 & v & -> & Hq & Hv & -> & Hl1).
      exists (p :: l1), q, l2, v. repeat split; try done.
      by constructor.
    + by constructor.
Qed.

Lemma typed_field_loop_fmap {R : Type} measurement field
    (k : FieldValue -> R) (ms : list Metric) :
  typed_field_loop measurement field k ms
    = k <$> typed_field_loop measurement field (fun v => v) ms.
Proof.
  induction ms as [|p ms IH]; [done|].
  rewrite !typed_field_loop_cons.
  destruct (decide _); [|done]. by destruct (Fields p !! field).
Qed.

Lemma HasField_typed measurement field (ms : list Metric) :
  HasField_loop measurement field ms
    = match typed_field_loop measurement field (fun v => v) ms with
      | Some _ => true
      | None => false
      end.
Proof.
  induction ms as [|p ms IH]; [done|].
  rewrite typed_field_loop_cons. cbn [HasField_loop].
  destruct (decide _); [|done]. by destruct (Fields p !! field).
Qed.

(** X12.  The typed accessors are consistent with one another: each
    [Has...Field] predicate is the [ok] flag of the accessor of that type;
    for one measurement and field at most one of the seven accessors
    succeeds; and whenever one succeeds [HasField] holds. *)
Theorem typed_accessors_consistent (measurement field : string)
    (a : Accumulator) :
  HasIntField measurement field a = (IntField measurement field a).2
  /\ HasInt64Field measurement field a = (Int64Field measurement field a).2
  /\ HasInt32Field measurement field a = (Int32Field measurement field a).2
  /\ HasStringField measurement field a = (StringField measurement field a).2
  /\ HasUIntField measurement field a = (Uint64Field measurement field a).2
  /\ HasFloatField measurement field a = (FloatField measurement field a).2
  /\ length (filter (fun b : bool => b = true)
               (accessor_oks measurement field a)) <= 1
  /\ (true ∈ accessor_oks measurement field a ->
      HasField measurement field a = true).
Proof.
  unfold HasIntField, HasInt64Field, HasInt32Field, HasStringField,
    HasUIntField, HasFloatField, accessor_oks, IntField, Int64Field,
    Int32Field, Uint64Field, FloatField, StringField, BoolField, HasField.
  rewrite HasField_typed.
  rewrite (typed_field_loop_fmap _ _ (fun v => (assert_int v).2)),
    (typed_field_loop_fmap _ _ (fun v => (assert_int64 v).2)),
    (typed_field_loop_fmap _ _ (fun v => (assert_int32 v).2)),
    (typed_field_loop_fmap _ _ (fun v => (assert_string v).2)),
    (typed_field_loop_fmap _ _ (fun v => (assert_uint64 v).2)),
    (typed_field_loop_fmap _ _ (fun v => (assert_float64 v).2)),
    (typed_field_loop_fmap _ _ assert_int),
    (typed_field_loop_fmap _ _ assert_int64),
    (typed_field_loop_fmap _ _ assert_int32),
    (typed_field_loop_fmap _ _ assert_string),
    (typed_field_loop_fmap _ _ assert_uint64),
    (typed_field_loop_fmap _ _ assert_float64),
    (typed_field_loop_fmap _ _ assert_bool).
  destruct (typed_field_loop measurement field (fun v => v) (Metrics a))
    as [v|]; cbn.
  - destruct v; do 6 (split; [reflexivity|]);
      (split; [vm_compute; lia|done]).
  - do 6 (split; [reflexivity|]). split; [vm_compute; lia|].
    cbn. rewrite !elem_of_cons, elem_of_nil. intuition discriminate.
Qed.

(** ** Storing, then querying *)

Ltac skip_prefix Hl :=
  induction Hl as [|q l' Hq _ IH]; cbn; [done|];
  rewrite decide_False by done; exact IH.

Lemma Get_loop_skip measurement (l l2 : list Metric) :
  Forall (fun q => Measurement q ≠ measurement) l ->
  Get_loop measurement (l ++ l2) = Get_loop measurement l2.
Proof. intros Hl. skip_prefix Hl. Qed.

Lemma HasMeasurement_loop_skip measurement (l l2 : list Metric) :
  Forall (fun q => Measurement q ≠ measurement) l ->
  HasMeasurement_loop measurement (l ++ l2)
    = HasMeasurement_loop measurement l2.
Proof. intros Hl. skip_prefix Hl. Qed.

Lemma HasTag_loop_skip measurement key (l l2 : list Metric) :
  Forall (fun q => Measurement q ≠ measurement) l ->
  HasTag_loop measurement key (l ++ l2) = HasTag_loop measurement key l2.
Proof. intros Hl. skip_prefix Hl. Qed.

Lemma TagValue_loop_skip measurement key (l l2 : list Metric) :
  Forall (fun q => Measurement q ≠ measurement) l ->
  TagValue_loop measurement key (l ++ l2)
    = TagValue_loop measurement key l2.
Proof. intros Hl. skip_prefix Hl. Qed.

Lemma TagSetValue_loop_skip measurement key (l l2 : list Metric) :
  Forall (fun q => Measurement q ≠ measurement) l ->
  TagSetValue_loop measurement key (l ++ l2)
    = TagSetValue_loop measurement key l2.
Proof. intros Hl. skip_prefix Hl. Qed.

Lemma HasTimestamp_loop_skip measurement t (l l2 : list Metric) :
  Forall (fun q => Measurement q ≠ measurement) l ->
  HasTimestamp_loop measurement t (l ++ l2)
    = HasTimestamp_loop measurement t l2.
Proof. intros Hl. skip_prefix Hl. Qed.

Lemma typed_field_loop_skip {R : Type} measurement field
    (k : FieldValue -> R) (l l2 : list Metric) :
  Forall (fun q => Measurement q ≠ measurement) l ->
  typed_field_loop measurement field k (l ++ l2)
    = typed_field_loop measurement field k l2.
Proof. intros Hl. skip_prefix Hl. Qed.

(** X13.  Store, then query by name and tag: after a measurement is stored
    under a name no stored point has yet, [Get] returns exactly the point
    submitted, [HasTimestamp] holds for its time only, and [HasTag],
    [TagValue] and [TagSetValue] answer from the tags supplied (a missing
    tag reads as the empty string). *)
Theorem query_after_store now measurement tags fields tp timestamp
    (a : Accumulator) :
  Discard a = false ->
  fields ≠ ∅ ->
  HasMeasurement measurement a = false ->
  let a' := addMeasurement now measurement tags fields tp timestamp a in
  HasMeasurement measurement a' = true
  /\ (exists t,
        Get measurement a' = Some (mkMetric measurement tags fields t tp)
        /\ (forall x, HasTimestamp measurement x a' = (x =? t)%Z)
        /\ (forall T rest, timestamp = T :: rest -> t = T))
  /\ (forall key,
        HasTag measurement key a' = bool_decide (is_Some (tags !! key))
        /\ TagValue measurement key a' = default "" (tags !! key)
        /\ TagSetValue measurement key a' = default "" (tags !! key)).
Proof.
  intros Hd Hf Hnew a'. subst a'.
  apply HasMeasurement_false_Forall in Hnew.
  unfold HasMeasurement, Get, HasTimestamp, HasTag, TagValue, TagSetValue.
  rewrite addMeasurement_stored by done.
  cbn [Metrics set_accumulated set_Metrics].
  rewrite HasMeasurement_loop_skip, Get_loop_skip by done.
  cbn. rewrite !decide_True by done.
  split; [done|]. split.
  - eexists. split; [reflexivity|]. split.
    + intros x. rewrite HasTimestamp_loop_skip by done.
      cbn. by rewrite decide_True.
    + by intros T rest ->.
  - intros key.
    rewrite HasTag_loop_skip, TagValue_loop_skip, TagSetValue_loop_skip
      by done.
    cbn. rewrite !decide_True by done.
    by destruct (tags !! key) as [v|] eqn:Hk.
Qed.

Lemma query_after_store_witness :
  let f : gmap string FieldValue := {["time_idle" := VInt 42]} in
  let a' := addMeasurement 0%Z "cpu" {["host" := "a"]} f Counter [7%Z]
              zero_Accumulator in
  HasMeasurement "cpu" a' = true
  /\ TagValue "cpu" "host" a' = "a"
  /\ TagValue "cpu" "zone" a' = "".
Proof.
  intros f a'.
  destruct (query_after_store 0%Z "cpu" {["host" := "a"]} f Counter [7%Z]
              zero_Accumulator eq_refl) as (HM & _ & HT).
  - apply insert_non_empty.
  - reflexivity.
  - split; [exact HM|].
    split; [apply (HT "host") | apply (HT "zone")].
Defined.

(** X14.  Store, then read the fields back: after a measurement is stored
    under a name no stored point has yet, [HasField] holds exactly for the
    fields supplied, and each typed accessor returns the supplied value
    with [ok = true] when the field was supplied with that type, and the
    zero value with [ok = false] otherwise. *)
Theorem fields_after_store now measurement tags fields tp timestamp
    (a : Accumulator) (field : string) :
  Discard a = false ->
  fields ≠ ∅ ->
  HasMeasurement measurement a = false ->
  let a' := addMeasurement now measurement tags fields tp timestamp a in
  HasField measurement field a' = bool_decide (is_Some (fields !! field))
  /\ IntField measurement field a'
     = from_option assert_int (0%Z, false) (fields !! field)
  /\ Int64Field measurement field a'
     = from_option assert_int64 (0%Z, false) (fields !! field)
  /\ Int32Field measurement field a'
     = from_option assert_int32 (0%Z, false) (fields !! field)
  /\ Uint64Field measurement field a'
     = from_option assert_uint64 (0%N, false) (fields !! field)
  /\ FloatField measurement field a'
     = from_option assert_float64 (0%N, false) (fields !! field)
  /\ StringField measurement field a'
     = from_option assert_string ("", false) (fields !! field)
  /\ BoolField measurement field a'
     = from_option assert_bool (false, false) (fields !! field).
Proof.
  intros Hd Hf Hnew a'. subst a'.
  apply HasMeasurement_false_Forall in Hnew.
  unfold HasField, IntField, Int64Field, Int32Field, Uint64Field,
    FloatField, StringField, BoolField.
  rewrite HasField_typed.
  rewrite addMeasurement_stored by done.
  cbn [Metrics set_accumulated set_Metrics].
  rewrite !typed_field_loop_skip by done.
  rewrite !typed_field_loop_cons. cbn [Measurement Fields typed_field_loop].
  rewrite !decide_True by done.
  by destruct (fields !! field) as [v|] eqn:Hk.
Qed.

Lemma fields_after_store_witness :
  let f : gmap string FieldValue :=
    {["time_idle" := VInt 42; "host" := VString "a"]} in
  let a' := addMeasurement 0%Z "cpu" ∅ f Counter [] zero_Accumulator in
  IntField "cpu" "time_idle" a' = (42%Z, true)
  /\ Int64Field "cpu" "time_idle" a' = (0%Z, false)
  /\ StringField "cpu" "host" a' = ("a", true)
  /\ BoolField "cpu" "up" a' = (false, false).
Proof.
  intros f a'.
  assert (Hf : f ≠ ∅) by apply insert_non_empty.
  split; [|split; [|split]].
  - apply (fields_after_store 0%Z "cpu" ∅ f Counter [] zero_Accumulator
             "time_idle" eq_refl Hf eq_refl).
  - apply (fields_after_store 0%Z "cpu" ∅ f Counter [] zero_Accumulator
             "time_idle" eq_refl Hf eq_refl).
  - apply (fields_after_store 0%Z "cpu" ∅ f Counter [] zero_Accumulator
             "host" eq_refl Hf eq_refl).
  - apply (fields_after_store 0%Z "cpu" ∅ f Counter [] zero_Accumulator
             "up" eq_refl Hf eq_refl).
Defined.

(** ** Batches *)

Lemma has_fields_true (m : telegraf_Metric) :
  has_fields m = true <-> m_Fields m ≠ ∅.
Proof.
  unfold has_fields. rewrite <- FieldList_nil_iff.
  destruct (FieldList m); cbn; split; done.
Qed.

Lemma AddMetric_cases (m : telegraf_Metric) (a : Accumulator) :
  Discard (AddMetric m a) = Discard a
  /\ nMetrics (AddMetric m a) = incr64 (nMetrics a)
  /\ accumulated (AddMetric m a)
     = accumulated a ++ (if Discard a then []
                         else if has_fields m then [m] else [])
  /\ Metrics (AddMetric m a)
     = Metrics a ++ (if Discard a then []
                     else if has_fields m then [ToTestMetric m] else []).
Proof.
  destruct (counted_frame a) as (Hn & HM & HA & HD & _).
  destruct (Discard a) eqn:Hd.
  { rewrite AddMetric_discard by done.
    by rewrite HD, Hn, HM, HA, !app_nil_r. }
  destruct (has_fields m) eqn:Hf.
  - apply has_fields_true in Hf. rewrite AddMetric_stored by done.
    cbn. by rewrite HD, Hn.
  - assert (m_Fields m = ∅) as Hf'.
    { destruct (decide (m_Fields m = ∅)) as [|Hne]; [done|].
      apply has_fields_true in Hne. congruence. }
    rewrite AddMetric_no_fields by done.
    by rewrite HD, Hn, HM, HA, !app_nil_r.
Qed.

(** X15.  [AddMetrics] counts every metric of the batch and, unless the
    discard-flag is set, stores exactly those that have at least one
    field, in the order of the batch, after what was stored before. *)
Theorem AddMetrics_stores_those_with_fields (ms : list telegraf_Metric)
    (a : Accumulator) :
  accumulated (AddMetrics ms a)
    = accumulated a ++ (if Discard a then [] else List.filter has_fields ms)
  /\ Metrics (AddMetrics ms a)
     = Metrics a ++ (if Discard a then []
                     else map ToTestMetric (List.filter has_fields ms))
  /\ NMetrics (AddMetrics ms a) = Nat.iter (length ms) incr64 (NMetrics a)
  /\ Discard (AddMetrics ms a) = Discard a.
Proof.
  unfold AddMetrics, NMetrics. revert a.
  induction ms as [|m ms IH]; intros a; cbn [fold_left length List.filter].
  { cbn. destruct (Discard a); by rewrite !app_nil_r. }
  destruct (IH (AddMetric m a)) as (HA & HM & HN & HD).
  destruct (AddMetric_cases m a) as (HD1 & HN1 & HA1 & HM1).
  rewrite HA, HM, HN, HD, HD1, HN1, HA1, HM1, Nat.iter_succ_r.
  destruct (Discard a); [by rewrite !app_nil_r|].
  destruct (has_fields m); cbn [map]; by rewrite <- !app_assoc.
Qed.

(** ** Waiting for a count *)

(** X16.  After a run that submits measurements and does not clear the
    accumulator, [Wait(n)] returns without parking exactly when [n] is at
    most the counter before the run plus the number of measurements
    submitted, dropped ones included (for counters below [2^63], where the
    conversion to [int] is exact). *)
Theorem Wait_returns_after_submissions (ops : list Op) (w w' : World)
    (n : Z) :
  Forall (fun op => is_clear op = false) ops ->
  run ops w = Done w' ->
  (NMetrics (acc w) + N.of_nat (total_submissions ops) < 2 ^ 63)%N ->
  (Wait n (acc w')).2 = Returned
  <-> (n <= Z.of_N (NMetrics (acc w))
            + Z.of_nat (total_submissions ops))%Z.
Proof.
  intros Hops Hrun Hlt. unfold Wait, NMetrics in *. cbn [snd].
  destruct (NewCond_if_nil_same_store (acc w')) as (-> & _).
  rewrite (run_nMetrics _ _ _ Hops Hrun).
  rewrite iter_incr_small by lia.
  unfold int_of_uint64.
  destruct (N.ltb_spec (nMetrics (acc w) + N.of_nat (total_submissions ops))
              (2 ^ 63)) as [_|Hge]; [|lia].
  destruct (Z.ltb_spec
              (Z.of_N (nMetrics (acc w) + N.of_nat (total_submissions ops)))
              n) as [Hn|Hn]; split; intros H; try done; lia.
Qed.

Lemma Wait_returns_after_submissions_witness :
  let f : gmap string FieldValue := {["value" := VInt 1]} in
  let ops := [OpAddFields 1%Z "a" f ∅ []; OpAddFields 2%Z "b" ∅ ∅ [];
              OpSetDiscard true; OpAddFields 3%Z "c" f ∅ []] in
  exists w',
    run ops zero_World = Done w'
    /\ (Wait 3%Z (acc w')).2 = Returned
    /\ (Wait 4%Z (acc w')).2 = Parked.
Proof.
  intros f ops.
  exists (match run ops zero_World with Done w' => w' | Panic _ => zero_World end).
  split; [reflexivity|]. split; [|reflexivity].
  apply (Wait_returns_after_submissions ops zero_World).
  - repeat constructor.
  - reflexivity.
  - reflexivity.
  - cbn. lia.
Defined.

(** * The MAVLink reader *)

(** Once [Stop] has been called the loop submits nothing more, whatever
    arrives. *)
Lemma events_loop_terminated {Frame Filter : Type}
    (convert : Frame -> Filter -> telegraf_Metric)
    (AddTag : string -> string -> telegraf_Metric -> telegraf_Metric)
    (s : mavlink.Mavlink Filter) (occ : list (mavlink.Occurrence Frame)) (a : Accumulator)
    (log : list string) :
  mavlink.terminated s = true ->
  mavlink.events_loop convert AddTag s occ a log = (a, log).
Proof.
  revert s. induction occ as [|[evt|] occ IH]; intros s Ht;
    cbn [mavlink.events_loop]; [done|by rewrite Ht|by apply IH].
Qed.

(** X17.  The reading goroutine submits exactly one metric for every frame
    the connection delivers before [Stop] is called, in the order of
    arrival, each converted and then tagged with the plugin's URL as
    [source]; frames arriving after [Stop], and events that are not
    frames, submit nothing.  In terms of the accumulator, the goroutine is
    one [AddMetrics] of those metrics. *)
Theorem Start_routine_submits_frames {Frame Filter : Type}
    (convert : Frame -> Filter -> telegraf_Metric)
    (AddTag : string -> string -> telegraf_Metric -> telegraf_Metric)
    (s : mavlink.Mavlink Filter) (occ : list (mavlink.Occurrence Frame)) (a : Accumulator) :
  (mavlink.Start_routine convert AddTag s occ a).1
    = if mavlink.terminated s then a
      else AddMetrics
             (map (fun frame => AddTag "source" (mavlink.URL s) (convert frame (mavlink.filter s)))
                (mavlink.frames_before_stop occ))
             a.
Proof.
  unfold mavlink.Start_routine. destruct (mavlink.terminated s) eqn:Ht; [done|].
  generalize (@nil string) as log. revert a.
  induction occ as [|[evt|] occ IH]; intros a log; cbn [mavlink.events_loop].
  - done.
  - rewrite Ht. destruct evt; cbn [mavlink.frames_before_stop map]; apply IH.
  - by rewrite events_loop_terminated.
Qed.
